(** * Variable selection for linear regression (src/utils/functions.py)

    A shallow embedding of the four selection procedures
    [forward_selection], [backward_selection_aic],
    [stepwise_selection_both] and [backward_selection_pvalue], and the
    properties of their search loops.

    - The regression fit, [smf.ols(formula, data=data).fit()], is an
      external capability: a variable [ols] of the development, a function
      from the formula string and the data table to a fitted model, or to
      nothing when the fit raises.
    - Python floats are IEEE binary64 numbers: Rocq's primitive floats,
      with their [<], [-], infinity and NaN.
    - A procedure runs in a state that holds the data table and a trace of
      the fits asked for and the lines printed; it returns a value, raises
      an exception, or uses up the loop budget that makes the embedding's
      loops structural.
    - A Python set is the list of its elements in iteration order; the
      order of a fresh set is a variable [set_iter].  Removing an element
      leaves the others in their order.
    - Of pandas, what the code relies on: a Series is looked up by label,
      [drop] deletes a label, [max] and [idxmax] skip NaN, and [idxmax]
      raises [ValueError] on a Series that is empty or holds NaN only.
    - Of [list.sort], the order CPython gives: it matters when a key is
      NaN. *)

From Stdlib Require Import List String Ascii Bool Arith ZArith Lia Floats.
From Stdlib Require Import Permutation Relations Sorted.
Import ListNotations.

Set Implicit Arguments.
Set Warnings "-inexact-float".

(* ================================================================= *)
(** * Python floats and their comparisons *)

Module PyFloat.

(** [x < y], [x > y] and [x <= y] on Python floats. *)
Definition lt (x y : float) : bool := PrimFloat.ltb x y.
Definition gt (x y : float) : bool := PrimFloat.ltb y x.
Definition le (x y : float) : bool := PrimFloat.leb x y.

(** [float('inf')] *)
Definition inf : float := infinity.

(** A float is a number when it is not NaN. *)
Definition number (x : float) : bool := negb (PrimFloat.is_nan x).

End PyFloat.


(* ================================================================= *)
(** * Python lists, sets and string formatting *)

Module Py.

(** Truth value of a list: [if selected_vars]. *)
Definition truthy {A} (l : list A) : bool :=
  match l with [] => false | _ :: _ => true end.

(** [x in l] *)
Fixpoint mem (x : string) (l : list string) : bool :=
  match l with
  | [] => false
  | y :: l' => if String.eqb y x then true else mem x l'
  end.

(** [l.remove(x)]: deletes the first occurrence; nothing when [x] is
    absent (Python raises there). *)
Fixpoint remove_first (x : string) (l : list string) : option (list string) :=
  match l with
  | [] => None
  | y :: l' =>
      if String.eqb y x then Some l'
      else match remove_first x l' with
           | Some r => Some (y :: r)
           | None => None
           end
  end.

(** [[x for x in l if x != var]] *)
Definition without (var : string) (l : list string) : list string :=
  filter (fun x => negb (String.eqb x var)) l.

(** [' + '.join(l)] *)
Definition join (sep : string) (l : list string) : string := String.concat sep l.

(** [l.sort(key=...)] compares the keys with [<] and nothing else.  The
    definitions below follow CPython (3.11) on a list of fewer than 64
    elements, which is sorted as one run: [count_run] takes the run the
    list starts with, and [binarysort] inserts the elements after it one
    by one.  On keys that [<] orders (floats without NaN) the result is
    the stably sorted list, which is also what the merges of the runs of
    a longer list give; with a NaN among the keys the result depends on
    the comparisons made, and is the interpreter's for lists of fewer
    than 64 elements. *)

(** The elements after [prev] up to the first one smaller than its
    predecessor, and those left. *)
Fixpoint ascending_run {A} (key : A -> float) (prev : A) (l : list A)
    : list A * list A :=
  match l with
  | [] => ([], [])
  | x :: l' =>
      if PyFloat.lt (key x) (key prev) then ([], l)
      else let (run, rest) := ascending_run key x l' in (x :: run, rest)
  end.

(** The elements after [prev] as long as each is smaller than its
    predecessor, and those left. *)
Fixpoint descending_run {A} (key : A -> float) (prev : A) (l : list A)
    : list A * list A :=
  match l with
  | [] => ([], [])
  | x :: l' =>
      if PyFloat.lt (key x) (key prev)
      then let (run, rest) := descending_run key x l' in (x :: run, rest)
      else ([], l)
  end.

(** The run at the head of the list, in ascending order (a strictly
    descending run is reversed), and the elements after it. *)
Definition count_run {A} (key : A -> float) (l : list A) : list A * list A :=
  match l with
  | [] => ([], [])
  | x :: l' =>
      match l' with
      | [] => ([x], [])
      | y :: _ =>
          if PyFloat.lt (key y) (key x)
          then let (run, rest) := descending_run key x l' in (rev (x :: run), rest)
          else let (run, rest) := ascending_run key x l' in (x :: run, rest)
      end
  end.

(** Where [pivot] goes in the sorted list [a]: the binary search between
    the positions [l] and [r], with the midpoint [l + ((r - l) >> 1)]. *)
Fixpoint bisect {A} (key : A -> float) (pivot : A) (a : list A)
    (fuel l r : nat) : nat :=
  match fuel with
  | 0 => l
  | S fuel' =>
      if l <? r then
        let p := l + (r - l) / 2 in
        match nth_error a p with
        | Some x =>
            if PyFloat.lt (key pivot) (key x)
            then bisect key pivot a fuel' l p
            else bisect key pivot a fuel' (p + 1) r
        | None => l
        end
      else l
  end.

Definition binary_insert {A} (key : A -> float) (a : list A) (pivot : A) : list A :=
  let l := bisect key pivot a (List.length a) 0 (List.length a) in
  firstn l a ++ pivot :: skipn l a.

Definition binarysort {A} (key : A -> float) (run rest : list A) : list A :=
  fold_left (binary_insert key) rest run.

Definition sort_by {A} (key : A -> float) (l : list A) : list A :=
  let (run, rest) := count_run key l in binarysort key run rest.

End Py.


(** The formulas the procedures build. *)
Definition formula_terms (response : string) (terms : list string) : string :=
  (response ++ " ~ " ++ Py.join " + " terms)%string.

Definition formula_intercept (response : string) : string :=
  (response ++ " ~ 1")%string.

(* ================================================================= *)
(** * pandas and statsmodels objects *)

(** A pandas Series of floats: labels with their values, in index order. *)
Definition Series := list (string * float).

(** What the procedures read of a fitted model. *)
Record RegressionResults := mkResults { pvalues : Series; aic : float }.

(** The data table: column labels and the rows of values. *)
Record DataFrame := mkData { columns : list string; values : list (list float) }.

Module Pandas.

(** [s[k]]: the value at the first label equal to [k]. *)
Fixpoint get (s : Series) (k : string) : option float :=
  match s with
  | [] => None
  | (l, v) :: s' => if String.eqb l k then Some v else get s' k
  end.

(** [k in s] tests the labels. *)
Definition contains (s : Series) (k : string) : bool :=
  match get s k with Some _ => true | None => false end.

(** [s.drop(label, errors='ignore')] *)
Definition drop (label : string) (s : Series) : Series :=
  filter (fun e => negb (String.eqb (fst e) label)) s.

(** The entries that [max] and [idxmax] look at: NaN is skipped. *)
Definition numbers (s : Series) : Series :=
  filter (fun e => PyFloat.number (snd e)) s.

(** First entry holding the largest value. *)
Fixpoint largest (best : string * float) (s : Series) : string * float :=
  match s with
  | [] => best
  | e :: s' => if PyFloat.lt (snd best) (snd e) then largest e s' else largest best s'
  end.

Definition first_largest (s : Series) : option (string * float) :=
  match numbers s with
  | [] => None
  | e :: s' => Some (largest e s')
  end.

(** [s.idxmax()]: the label of [first_largest].  There is none on an
    empty Series and on a Series of NaN only, where [idxmax] raises
    [ValueError] (pandas 3; pandas 2 warned and answered NaN for the
    latter). *)
Definition idxmax (s : Series) : option string :=
  option_map fst (first_largest s).

(** [s.max()]: NaN when nothing is left after skipping NaN. *)
Definition max (s : Series) : float :=
  match first_largest s with Some e => snd e | None => nan end.

End Pandas.

(* ================================================================= *)
(** * Effects: the data table, the fits requested and the lines printed *)

Inductive exn : Type :=
  | KeyError (key : string)
  | ValueError
  | IndexError
  | FitError.

(** Lines written by [print]. *)
Inductive line : Type :=
  | Included (var : string) (pval aic_value : float)
  | Removed (var : string) (aic_value : float)
  | NoFurtherImprovement
  | Removing (var : string) (pval : float).

Inductive event : Type :=
  | Fit (formula : string)
  | Printed (l : line).

(** The state a call runs in: the table bound to [data], and the trace of
  fits and printed lines. *)
Record World := mkWorld { w_data : DataFrame; w_trace : list event }.

(** How a computation ends: with a value, with a raised exception, or
  with the loop budget of the embedding used up. *)
Inductive result (A : Type) : Type :=
  | Ok (a : A)
  | Raise (e : exn)
  | OutOfFuel.
Arguments Ok {A} a.
Arguments Raise {A} e.
Arguments OutOfFuel {A}.

Definition M (A : Type) : Type := World -> World * result A.

Definition ret {A} (a : A) : M A := fun w => (w, Ok a).

Definition raise {A} (e : exn) : M A := fun w => (w, Raise e).

Definition out_of_fuel {A} : M A := fun w => (w, OutOfFuel).

Definition bind {A B} (m : M A) (f : A -> M B) : M B :=
  fun w =>
    match m w with
    | (w', Ok a) => f a w'
    | (w', Raise e) => (w', Raise e)
    | (w', OutOfFuel) => (w', OutOfFuel)
    end.

Declare Scope py_scope.
Delimit Scope py_scope with py.
Notation "x <- m ;; k" := (bind m (fun x => k))
  (at level 61, m at next level, right associativity) : py_scope.
Notation "m ;;; k" := (bind m (fun _ => k))
  (at level 61, right associativity) : py_scope.
Open Scope py_scope.

(** A value that may be missing, raising [e] when it is. *)
Definition or_raise {A} (e : exn) (o : option A) : M A :=
  match o with Some a => ret a | None => raise e end.

(** [for x in l: ys.append(f(x))] *)
Fixpoint for_each {A B} (f : A -> M B) (l : list A) : M (list B) :=
  match l with
  | [] => ret []
  | x :: l' => y <- f x ;; ys <- for_each f l' ;; ret (y :: ys)
  end.

(** [while cond: body] *)
Fixpoint while {S} (fuel : nat) (cond : S -> bool) (body : S -> M S) (s : S) : M S :=
  if cond s then
    match fuel with
    | 0 => out_of_fuel
    | S n => s' <- body s ;; while n cond body s'
    end
  else ret s.

(** [while True: body], left by [break]. *)
Inductive ctl (S : Type) : Type :=
  | Continue (s : S)
  | Break (s : S).
Arguments Continue {S} s.
Arguments Break {S} s.

Fixpoint loop {S} (fuel : nat) (body : S -> M (ctl S)) (s : S) : M S :=
  match fuel with
  | 0 => out_of_fuel
  | S n =>
      c <- body s ;;
      match c with
      | Continue s' => loop n body s'
      | Break s' => ret s'
      end
  end.

(** [data.columns] *)
Definition data_columns : M (list string) := fun w => (w, Ok (columns (w_data w))).

(** [print(l)] *)
Definition print (l : line) : M unit :=
  fun w => (mkWorld (w_data w) (w_trace w ++ [Printed l]), Ok tt).

Definition when (b : bool) (m : M unit) : M unit := if b then m else ret tt.

(* ================================================================= *)
(** * The selection procedures *)

Record fwd_state := mkFwd {
  fw_remaining : list string;
  fw_selected : list string;
  fw_changed : bool }.

Record aic_state := mkAic {
  ba_remaining : list string;
  ba_model : RegressionResults;
  ba_aic : float }.

Record sw_state := mkSw {
  sw_selected : list string;
  sw_remaining : list string;
  sw_best_model : RegressionResults;
  sw_best_aic : float;
  sw_improved : bool }.

Record pv_state := mkPv {
  pv_remaining : list string;
  pv_model : RegressionResults }.

Section Selection.

(** The fitting capability: [smf.ols(formula, data=data).fit()], with
    [None] when it raises. *)
Variable ols : string -> DataFrame -> option RegressionResults.

(** The iteration order of a freshly built Python set holding the given
    elements; the language leaves it open. *)
Variable set_iter : list string -> list string.

Definition ols_fit (formula : string) : M RegressionResults :=
  fun w =>
    let w' := mkWorld (w_data w) (w_trace w ++ [Fit formula]) in
    match ols formula (w_data w) with
    | Some model => (w', Ok model)
    | None => (w', Raise FitError)
    end.

(** [a - b] on sets: a new set with the elements of [a] not in [b]. *)
Definition set_difference (a b : list string) : list string :=
  set_iter (filter (fun x => negb (Py.mem x b)) a).

(** ** forward_selection *)

Definition forward_candidate (response : string) (selected_vars : list string)
    (candidate : string) : M (string * float) :=
  let formula :=
    if Py.truthy selected_vars
    then formula_terms response (selected_vars ++ [candidate])
    else (response ++ " ~ " ++ candidate)%string in
  model <- ols_fit formula ;;
  pval <- or_raise (KeyError candidate) (Pandas.get (pvalues model) candidate) ;;
  ret (candidate, pval).

Definition forward_round (response : string) (significance_level : float)
    (s : fwd_state) : M fwd_state :=
  pvals <- for_each (forward_candidate response (fw_selected s)) (fw_remaining s) ;;
  match Py.sort_by snd pvals with
  | [] => raise IndexError
  | (best_candidate, best_pval) :: _ =>
      if PyFloat.lt best_pval significance_level then
        remaining_vars <- or_raise (KeyError best_candidate)
                            (Py.remove_first best_candidate (fw_remaining s)) ;;
        ret (mkFwd remaining_vars (fw_selected s ++ [best_candidate]) true)
      else ret (mkFwd (fw_remaining s) (fw_selected s) false)
  end.

Definition forward_cond (s : fwd_state) : bool :=
  fw_changed s && (0 <? List.length (fw_remaining s)).

Definition forward_selection (fuel : nat) (response : string)
    (significance_level : float) : M (RegressionResults * list string) :=
  cols <- data_columns ;;
  remaining_vars <- or_raise (KeyError response)
                      (Py.remove_first response (set_iter cols)) ;;
  s <- while fuel forward_cond (forward_round response significance_level)
         (mkFwd remaining_vars [] true) ;;
  let formula :=
    if Py.truthy (fw_selected s)
    then formula_terms response (fw_selected s)
    else formula_intercept response in
  final_model <- ols_fit formula ;;
  ret (final_model, fw_selected s).

(** ** backward_selection_aic *)

Definition aic_candidate (response : string) (remaining_vars : list string)
    (var : string) : M (string * float * RegressionResults) :=
  let vars_minus_one := Py.without var remaining_vars in
  model_test <- ols_fit (formula_terms response vars_minus_one) ;;
  ret (var, aic model_test, model_test).

Definition aic_key (c : string * float * RegressionResults) : float := snd (fst c).

Definition aic_round (response : string) (s : aic_state) : M (ctl aic_state) :=
  aic_values <- for_each (aic_candidate response (ba_remaining s)) (ba_remaining s) ;;
  match Py.sort_by aic_key aic_values with
  | [] => raise IndexError
  | (best_candidate, best_aic, best_model) :: _ =>
      if PyFloat.lt best_aic (ba_aic s) then
        remaining_vars <- or_raise ValueError
                            (Py.remove_first best_candidate (ba_remaining s)) ;;
        ret (Continue (mkAic remaining_vars best_model best_aic))
      else ret (Break s)
  end.

Definition backward_selection_aic (fuel : nat) (response : string)
    : M (RegressionResults * list string) :=
  cols <- data_columns ;;
  remaining_vars <- or_raise ValueError (Py.remove_first response cols) ;;
  current_model <- ols_fit (formula_terms response remaining_vars) ;;
  s <- loop fuel (aic_round response)
         (mkAic remaining_vars current_model (aic current_model)) ;;
  ret (ba_model s, ba_remaining s).

(** ** stepwise_selection_both *)

Definition inclusion_candidate (response : string) (selected_vars : list string)
    (var : string) : M (string * float * float * RegressionResults) :=
  model_test <- ols_fit (formula_terms response (selected_vars ++ [var])) ;;
  pval_test <- or_raise (KeyError var) (Pandas.get (pvalues model_test) var) ;;
  ret (var, aic model_test, pval_test, model_test).

Definition removal_candidate (response : string) (selected_vars : list string)
    (var : string) : M (string * float * RegressionResults) :=
  let vars_minus_one := Py.without var selected_vars in
  let formula_test :=
    if List.length vars_minus_one =? 0
    then formula_intercept response
    else formula_terms response vars_minus_one in
  model_test <- ols_fit formula_test ;;
  ret (var, aic model_test, model_test).

Definition inclusion_key (c : string * float * float * RegressionResults) : float :=
  snd (fst (fst c)).

(** The best inclusion and the best removal of a round: the head of the
    candidates sorted by AIC, or nothing when there is no candidate. *)
Definition best_inclusion (response : string) (s : sw_state)
    : M (option (string * float * float * RegressionResults)) :=
  candidates_for_inclusion <-
    for_each (inclusion_candidate response (sw_selected s)) (sw_remaining s) ;;
  ret (hd_error (Py.sort_by inclusion_key candidates_for_inclusion)).

Definition best_removal (response : string) (s : sw_state)
    : M (option (string * float * RegressionResults)) :=
  if Py.truthy (sw_selected s) then
    candidates_for_removal <-
      for_each (removal_candidate response (sw_selected s)) (sw_selected s) ;;
    match Py.sort_by aic_key candidates_for_removal with
    | [] => raise IndexError
    | best :: _ => ret (Some best)
    end
  else ret None.

Definition best_aic_inclusion (inc : option (string * float * float * RegressionResults))
    : float :=
  match inc with Some (_, a, _, _) => a | None => PyFloat.inf end.

Definition best_pval_inclusion (inc : option (string * float * float * RegressionResults))
    : float :=
  match inc with Some (_, _, p, _) => p | None => 1%float end.

Definition best_aic_removal (rem : option (string * float * RegressionResults)) : float :=
  match rem with Some (_, a, _) => a | None => PyFloat.inf end.

(** The p-value of the removal candidate in the current best model. *)
Definition worst_var_pval (s : sw_state)
    (rem : option (string * float * RegressionResults)) : float :=
  let var_pvalues := if 0 <? List.length (sw_selected s) then pvalues (sw_best_model s) else [] in
  match rem with
  | Some (best_candidate_removal, _, _) =>
      match Pandas.get var_pvalues best_candidate_removal with
      | Some p => p
      | None => 0%float
      end
  | None => 0%float
  end.

Definition do_inclusion (threshold_in : float) (s : sw_state)
    (inc : option (string * float * float * RegressionResults)) : bool :=
  PyFloat.lt (best_aic_inclusion inc) (sw_best_aic s)
  && PyFloat.lt (best_pval_inclusion inc) threshold_in.

Definition do_removal (threshold_out : float) (s : sw_state)
    (rem : option (string * float * RegressionResults)) : bool :=
  PyFloat.lt (best_aic_removal rem) (sw_best_aic s)
  && PyFloat.gt (worst_var_pval s rem) threshold_out.

(** The priority between the two moves: the flags after the conflict is
    settled. *)
Definition settle (best_aic aic_inclusion aic_removal : float)
    (flags : bool * bool) : bool * bool :=
  let '(inclusion, removal) := flags in
  if inclusion && removal then
    if PyFloat.gt (best_aic - aic_removal)%float (best_aic - aic_inclusion)%float
    then (false, removal)
    else (inclusion, false)
  else (inclusion, removal).

(** The decision of a round and the move it makes, given the best
    inclusion and the best removal. *)
Definition stepwise_move (threshold_in threshold_out : float) (verbose : bool)
    (s : sw_state)
    (inc : option (string * float * float * RegressionResults))
    (rem : option (string * float * RegressionResults)) : M sw_state :=
  let flags :=
    settle (sw_best_aic s) (best_aic_inclusion inc) (best_aic_removal rem)
      (do_inclusion threshold_in s inc, do_removal threshold_out s rem) in
  if fst flags then
    match inc with
    | Some (best_candidate_inclusion, aic_inclusion, pval_inclusion, best_model_inclusion) =>
        remaining_vars <- or_raise ValueError
                            (Py.remove_first best_candidate_inclusion (sw_remaining s)) ;;
        when verbose (print (Included best_candidate_inclusion pval_inclusion aic_inclusion)) ;;;
        ret (mkSw (sw_selected s ++ [best_candidate_inclusion]) remaining_vars
               best_model_inclusion aic_inclusion true)
    | None => raise ValueError
    end
  else if snd flags then
    match rem with
    | Some (best_candidate_removal, aic_removal, best_model_removal) =>
        selected_vars <- or_raise ValueError
                           (Py.remove_first best_candidate_removal (sw_selected s)) ;;
        when verbose (print (Removed best_candidate_removal aic_removal)) ;;;
        ret (mkSw selected_vars (sw_remaining s ++ [best_candidate_removal])
               best_model_removal aic_removal true)
    | None => raise ValueError
    end
  else
    when verbose (print NoFurtherImprovement) ;;;
    ret (mkSw (sw_selected s) (sw_remaining s) (sw_best_model s) (sw_best_aic s) false).

Definition stepwise_round (response : string) (threshold_in threshold_out : float)
    (verbose : bool) (s : sw_state) : M sw_state :=
  inc <- best_inclusion response s ;;
  rem <- best_removal response s ;;
  stepwise_move threshold_in threshold_out verbose s inc rem.

Definition stepwise_selection_both (fuel : nat) (response : string)
    (initial_list : option (list string)) (threshold_in threshold_out : float)
    (verbose : bool) : M (RegressionResults * list string) :=
  let selected_vars := match initial_list with None => [] | Some l => l end in
  cols <- data_columns ;;
  let remaining_vars :=
    set_difference (set_difference (set_iter cols) (set_iter selected_vars)) [response] in
  let formula :=
    if Py.truthy selected_vars
    then formula_terms response selected_vars
    else formula_intercept response in
  best_model <- ols_fit formula ;;
  s <- while fuel sw_improved
         (stepwise_round response threshold_in threshold_out verbose)
         (mkSw selected_vars remaining_vars best_model (aic best_model) true) ;;
  ret (sw_best_model s, sw_selected s).

(** ** backward_selection_pvalue *)

Definition pvalue_round (response : string) (alpha : float) (verbose : bool)
    (s : pv_state) : M (ctl pv_state) :=
  let pvals := Pandas.drop "Intercept" (pvalues (pv_model s)) in
  worst_feature <- or_raise ValueError (Pandas.idxmax pvals) ;;
  let worst_pval := Pandas.max pvals in
  if PyFloat.gt worst_pval alpha then
    when verbose (print (Removing worst_feature worst_pval)) ;;;
    remaining_vars <- or_raise ValueError
                        (Py.remove_first worst_feature (pv_remaining s)) ;;
    let formula :=
      if Py.truthy remaining_vars
      then formula_terms response remaining_vars
      else formula_intercept response in
    model <- ols_fit formula ;;
    ret (Continue (mkPv remaining_vars model))
  else ret (Break s).

Definition backward_selection_pvalue (fuel : nat) (response : string)
    (alpha : float) (verbose : bool) : M (RegressionResults * list string) :=
  cols <- data_columns ;;
  remaining_vars <- or_raise ValueError (Py.remove_first response cols) ;;
  model <- ols_fit (formula_terms response remaining_vars) ;;
  s <- loop fuel (pvalue_round response alpha verbose) (mkPv remaining_vars model) ;;
  ret (pv_model s, pv_remaining s).

End Selection.

(* ================================================================= *)
(** * The rounds as the specification words them

    Each relation below states one round of a procedure in terms of the
    fits it asks for, without the loop and the effects.  The theorems
    relate the procedures above to them. *)

(** [c] is an entry of [l] with the least key.  Keys are compared as
    numbers: the comparison says nothing once a key is NaN. *)
Definition least_by {A} (key : A -> float) (c : A) (l : list A) : Prop :=
  In c l /\
  ((forall x, In x l -> PyFloat.number (key x) = true) ->
   forall x, In x l -> PyFloat.le (key c) (key x) = true).

(** The formula of a predictor set: intercept-only when the set is empty. *)
Definition formula_of (response : string) (vars : list string) : string :=
  if Py.truthy vars then formula_terms response vars else formula_intercept response.

Section RoundSpecs.

Variable ols : string -> DataFrame -> option RegressionResults.
Variable d : DataFrame.
Variable response : string.

(** ** Forward selection *)

(** The entry a candidate gets: its own p-value in the fit of the selected
    variables plus the candidate. *)
Definition forward_fit (selected : list string) (candidate : string)
    (e : string * float) : Prop :=
  exists model,
    ols (formula_terms response (selected ++ [candidate])) d = Some model /\
    Pandas.get (pvalues model) candidate = Some (snd e) /\
    fst e = candidate.

(** A round: the candidate tried is the one [pvals.sort] puts first, a
    candidate with the least p-value when the p-values are numbers. *)
Definition forward_round_spec (significance_level : float) (s s' : fwd_state) : Prop :=
  exists pvals best_candidate best_pval,
    Forall2 (forward_fit (fw_selected s)) (fw_remaining s) pvals /\
    hd_error (Py.sort_by snd pvals) = Some (best_candidate, best_pval) /\
    least_by snd (best_candidate, best_pval) pvals /\
    if PyFloat.lt best_pval significance_level
    then exists remaining_vars,
           Py.remove_first best_candidate (fw_remaining s) = Some remaining_vars /\
           s' = mkFwd remaining_vars (fw_selected s ++ [best_candidate]) true
    else s' = mkFwd (fw_remaining s) (fw_selected s) false.

(** A round is run while the last one added a variable and candidates remain. *)
Definition forward_step (significance_level : float) (s s' : fwd_state) : Prop :=
  fw_changed s = true /\ fw_remaining s <> [] /\
  forward_round_spec significance_level s s'.

Definition forward_done (s : fwd_state) : Prop :=
  fw_changed s = false \/ fw_remaining s = [].

(** ** Backward elimination by AIC *)

(** The entry of a removal: the fit without the variable. *)
Definition removal_fit (formula : list string -> string) (vars : list string)
    (var : string) (c : string * float * RegressionResults) : Prop :=
  exists model,
    ols (formula (Py.without var vars)) d = Some model /\
    c = (var, aic model, model).

(** The best single-variable removal of a round. *)
Definition best_aic_removal_of (s : aic_state)
    (best : string * float * RegressionResults) : Prop :=
  exists aic_values,
    Forall2 (removal_fit (formula_terms response) (ba_remaining s)) (ba_remaining s) aic_values /\
    least_by aic_key best aic_values.

(** A committed removal, and the round that stops the loop. *)
Definition aic_commit (s s' : aic_state) : Prop :=
  exists best_candidate best_aic best_model remaining_vars,
    best_aic_removal_of s (best_candidate, best_aic, best_model) /\
    PyFloat.lt best_aic (ba_aic s) = true /\
    Py.remove_first best_candidate (ba_remaining s) = Some remaining_vars /\
    s' = mkAic remaining_vars best_model best_aic.

Definition aic_stop (s : aic_state) : Prop :=
  exists best_candidate best_aic best_model,
    best_aic_removal_of s (best_candidate, best_aic, best_model) /\
    PyFloat.lt best_aic (ba_aic s) = false.

(** ** Stepwise selection *)

Definition inclusion_fit (selected : list string) (var : string)
    (c : string * float * float * RegressionResults) : Prop :=
  exists model pval,
    ols (formula_terms response (selected ++ [var])) d = Some model /\
    Pandas.get (pvalues model) var = Some pval /\
    c = (var, aic model, pval, model).

(** The minimum-AIC inclusion candidate of a round, if there is a candidate. *)
Definition min_aic_inclusion (s : sw_state)
    (inc : option (string * float * float * RegressionResults)) : Prop :=
  exists candidates,
    Forall2 (inclusion_fit (sw_selected s)) (sw_remaining s) candidates /\
    match inc with
    | Some best => least_by inclusion_key best candidates
    | None => sw_remaining s = []
    end.

(** The minimum-AIC removal candidate of a round, if a variable is selected. *)
Definition min_aic_removal (s : sw_state)
    (rem : option (string * float * RegressionResults)) : Prop :=
  match rem with
  | Some best =>
      exists candidates,
        Forall2 (removal_fit (formula_of response) (sw_selected s)) (sw_selected s) candidates /\
        least_by aic_key best candidates
  | None => sw_selected s = []
  end.

(** ** Backward elimination by p-value *)

(** The predictors' p-values of the current model. *)
Definition predictor_pvalues (s : pv_state) : Series :=
  Pandas.drop "Intercept" (pvalues (pv_model s)).

(** The entry with the maximum p-value: a number that no p-value exceeds
    (NaN is skipped). *)
Definition worst_of (pvals : Series) (worst : string * float) : Prop :=
  In worst pvals /\ PyFloat.number (snd worst) = true /\
  forall e, In e pvals -> PyFloat.lt (snd worst) (snd e) = false.

Definition pvalue_removal (alpha : float) (s s' : pv_state) : Prop :=
  exists worst_feature worst_pval remaining_vars model,
    worst_of (predictor_pvalues s) (worst_feature, worst_pval) /\
    PyFloat.gt worst_pval alpha = true /\
    Py.remove_first worst_feature (pv_remaining s) = Some remaining_vars /\
    ols (formula_of response remaining_vars) d = Some model /\
    s' = mkPv remaining_vars model.

(** The round that stops the loop: there is a maximum, and no p-value
    exceeds [alpha]. *)
Definition pvalue_stop (alpha : float) (s : pv_state) : Prop :=
  predictor_pvalues s <> [] /\
  (forall e, In e (predictor_pvalues s) -> PyFloat.gt (snd e) alpha = false) /\
  exists worst, worst_of (predictor_pvalues s) worst.

End RoundSpecs.

(** ** The result of every procedure *)


(** What Python promises of a set's iteration: each element once. *)
Definition python_set (set_iter : list string -> list string) : Prop :=
  forall l, NoDup (set_iter l) /\ forall x, In x (set_iter l) <-> In x l.


(* ================================================================= *)
(** * Notions the proofs use *)

(** A computation frames the data table when it leaves it as it found it,
    however it ends. *)
Definition frames {A} (m : M A) : Prop := forall w, w_data (fst (m w)) = w_data w.

(** A computation that needs no loop budget: it returns or raises. *)
Definition ends {A} (m : M A) : Prop := forall w, snd (m w) <> OutOfFuel.

(** The lists of at most [n] names taken from [names]. *)
Fixpoint lists_upto (n : nat) (names : list string) : list (list string) :=
  match n with
  | 0 => [[]]
  | S n' => [] :: flat_map (fun x => map (cons x) (lists_upto n' names)) names
  end.

Definition aic_of_fit (fit : option RegressionResults) : list float :=
  match fit with Some model => [aic model] | None => [] end.

(** The AIC values of the fits a stepwise search over [names] can ask for. *)
Definition fitted_aics (ols : string -> DataFrame -> option RegressionResults)
    (d : DataFrame) (response : string) (names : list string) : list float :=
  flat_map
    (fun vars =>
       aic_of_fit (ols (formula_terms response vars) d)
       ++ aic_of_fit (ols (formula_of response vars) d))
    (lists_upto (List.length names) names).

(** How many of the values [V] lie strictly below [x]. *)
Definition below (x : float) (V : list float) : nat :=
  List.length (filter (fun v => PyFloat.lt v x) V).

(** The rounds a stepwise search can still run: none once a round made
    no move, and otherwise one more than the fitted AIC values below the
    current one. *)
Definition stepwise_measure (V : list float) (s : sw_state) : nat :=
  if sw_improved s then S (below (sw_best_aic s) V) else 0.

(** The formulas of the fits a trace records, in the order asked. *)
Fixpoint fits_of (trace : list event) : list string :=
  match trace with
  | [] => []
  | Fit formula :: trace' => formula :: fits_of trace'
  | Printed _ :: trace' => fits_of trace'
  end.

(** Two states with the same table and the same fits asked so far: they
    may differ in the lines printed. *)
Definition same_fits (w1 w2 : World) : Prop :=
  w_data w1 = w_data w2 /\ fits_of (w_trace w1) = fits_of (w_trace w2).

(** Two computations that, from states with the same table and fits, end
    the same way and leave states with the same table and fits. *)
Definition agree {A} (m1 m2 : M A) : Prop :=
  forall w1 w2, same_fits w1 w2 ->
    same_fits (fst (m1 w1)) (fst (m2 w2)) /\ snd (m1 w1) = snd (m2 w2).

(** [1 + 2 + ... + n] *)
Fixpoint triangle (n : nat) : nat :=
  match n with
  | 0 => 0
  | S n' => n + triangle n'
  end.

(** A computation whose exceptions, if it raises, all satisfy [P]. *)
Definition raises_only {A} (P : exn -> Prop) (m : M A) : Prop :=
  forall w w' e, m w = (w', Raise e) -> P e.

(** The exceptions that come from outside the procedures: a refused fit,
    and a label that a table or a Series does not have. *)
Definition from_fit_or_lookup (e : exn) : Prop :=
  e = FitError \/ exists key, e = KeyError key.

(** The order of the keys of a sort, and the lists whose keys are numbers. *)
Definition key_le {A} (key : A -> float) (x y : A) : Prop :=
  PyFloat.le (key x) (key y) = true.

Definition key_lt {A} (key : A -> float) (x y : A) : Prop :=
  PyFloat.lt (key x) (key y) = true.

Definition number_keys {A} (key : A -> float) (l : list A) : Prop :=
  forall x, In x l -> PyFloat.number (key x) = true.

(* ================================================================= *)
(** * Example tables and fitting capabilities *)

Module Example.

Local Open Scope string_scope.

(** A fitting capability given by the fits it knows; it refuses any other
    formula, as the formula parser refuses [y ~ ] with nothing after the
    tilde. *)
Fixpoint table_ols (fits : list (string * RegressionResults)) (formula : string)
    (d : DataFrame) : option RegressionResults :=
  match fits with
  | [] => None
  | (f, model) :: fits' =>
      if String.eqb f formula then Some model else table_ols fits' formula d
  end.


(** A set order: each element once, in the order of the last occurrences. *)
Definition distinct (l : list string) : list string := nodup string_dec l.

(** A response [y], a strong predictor [x1] and a noise column [x2]. *)
Definition sales : DataFrame :=
  mkData ["y"; "x1"; "x2"]
    [[1; 1; 5]; [2; 2; 3]; [3; 3; 4]; [4; 4; 1]]%float.

Definition sales_fits : list (string * RegressionResults) :=
  [ ("y ~ 1", mkResults [("Intercept", 0.5)] 29);
    ("y ~ x1", mkResults [("Intercept", 0.5); ("x1", 0.0001)] 10);
    ("y ~ x2", mkResults [("Intercept", 0.5); ("x2", 0.7)] 30);
    ("y ~ x1 + x2", mkResults [("Intercept", 0.5); ("x1", 0.0001); ("x2", 0.6)] 12);
    ("y ~ x2 + x1", mkResults [("Intercept", 0.5); ("x2", 0.6); ("x1", 0.0001)] 12)
  ]%float%string.

Definition sales_world : World := mkWorld sales [].

(** Three predictors, of which [x3] is better left out. *)
Definition survey : DataFrame :=
  mkData ["y"; "x1"; "x2"; "x3"] [[1; 2; 3; 4]; [2; 1; 4; 3]]%float.

Definition survey_fits : list (string * RegressionResults) :=
  [ ("y ~ x1 + x2 + x3",
     mkResults [("Intercept", 0.1); ("x1", 0.01); ("x2", 0.02); ("x3", 0.9)] 20);
    ("y ~ x2 + x3", mkResults [("Intercept", 0.1); ("x2", 0.02); ("x3", 0.9)] 25);
    ("y ~ x1 + x3", mkResults [("Intercept", 0.1); ("x1", 0.01); ("x3", 0.9)] 22);
    ("y ~ x1 + x2", mkResults [("Intercept", 0.1); ("x1", 0.01); ("x2", 0.02)] 15);
    ("y ~ x1", mkResults [("Intercept", 0.1); ("x1", 0.01)] 18);
    ("y ~ x2", mkResults [("Intercept", 0.1); ("x2", 0.02)] 30)
  ]%float%string.

Definition survey_world : World := mkWorld survey [].

(** The state of a stepwise search on [sales] that holds the noise column. *)
Definition holding_noise : sw_state :=
  (mkSw ["x2"] ["x1"] (mkResults [("Intercept", 0.5); ("x2", 0.7)] 30) 30 true)%float.

(** The best inclusion and the best removal from that state. *)
Definition noise_inclusion : option (string * float * float * RegressionResults) :=
  Some ("x1", 12, 0.0001,
        mkResults [("Intercept", 0.5); ("x2", 0.6); ("x1", 0.0001)] 12)%float.

Definition noise_removal : option (string * float * RegressionResults) :=
  Some ("x2", 29, mkResults [("Intercept", 0.5)] 29)%float.




(** A table that holds the response and nothing else. *)
Definition response_only : DataFrame := mkData ["y"] [[1]; [2]; [4]]%float.

(** [sales_world] after a line was printed. *)
Definition sales_world_printed : World := mkWorld sales [Printed NoFurtherImprovement].

(** A table with one predictor. *)
Definition single : DataFrame := mkData ["y"; "x"] [[1; 2]; [2; 1]]%float.

Definition single_fits : list (string * RegressionResults) :=
  [ ("y ~ x", mkResults [("Intercept", 0.5); ("x", 0.7)] 30);
    ("y ~ 1", mkResults [("Intercept", 0.5)] 29)
  ]%float%string.

(** A table with a column of zeros, [z], between two predictors.  A fit
    has no p-value to give for such a column: it is NaN. *)
Definition zero_column : DataFrame :=
  mkData ["y"; "a"; "z"; "c"]
    [[1; 2; 0; 1]; [2; 1; 0; 2]; [4; 3; 0; 5]; [3; 5; 0; 3]]%float.

Definition zero_column_full : RegressionResults :=
  (mkResults [("Intercept", 0.2); ("a", 0.03); ("z", nan); ("c", 0.01)] 9)%float.

Definition zero_column_fits : list (string * RegressionResults) :=
  [ ("y ~ 1", mkResults [("Intercept", 0.2)] 20);
    ("y ~ a", mkResults [("Intercept", 0.2); ("a", 0.03)] 12);
    ("y ~ z", mkResults [("Intercept", 0.2); ("z", nan)] 20);
    ("y ~ c", mkResults [("Intercept", 0.2); ("c", 0.01)] 10);
    ("y ~ a + z", mkResults [("Intercept", 0.2); ("a", 0.03); ("z", nan)] 12);
    ("y ~ a + c", mkResults [("Intercept", 0.2); ("a", 0.04); ("c", 0.02)] 9);
    ("y ~ a + z + c", zero_column_full)
  ]%float%string.

Definition zero_column_world : World := mkWorld zero_column [].

End Example.

(* ================================================================= *)
(** * Facts about the comparisons of floats *)

Module FloatFacts.
Import PyFloat.

Ltac sf_order :=
  repeat match goal with
  | b : bool |- _ => destruct b
  | |- context [(?a ?= ?b)%Z] => destruct (Z.compare_spec a b)
  | |- context [PosDef.Pos.compare_cont Eq ?a ?b] =>
      change (PosDef.Pos.compare_cont Eq a b) with (Pos.compare a b);
      destruct (Pos.compare_spec a b)
  end; simpl; try congruence; try lia.

Lemma SFcompare_lt_trans x y z :
  SFcompare x y = Some Lt -> SFcompare y z = Some Lt -> SFcompare x z = Some Lt.
Proof. destruct x, y, z; simpl; try discriminate; sf_order. Qed.

Lemma SFcompare_refl x c : SFcompare x x = Some c -> c = Eq.
Proof. destruct x; simpl; try discriminate; sf_order. Qed.

Lemma SFcompare_opp x y c :
  SFcompare x y = Some c -> SFcompare y x = Some (CompOpp c).
Proof.
  destruct x, y; simpl; try discriminate; intros [= <-]; f_equal; sf_order.
Qed.

Lemma SFcompare_some x y :
  SFcompare x x <> None -> SFcompare y y <> None -> SFcompare x y <> None.
Proof. destruct x, y; simpl; congruence. Qed.

Lemma SFcompare_le_trans x y z c1 c2 :
  SFcompare x y = Some c1 -> c1 <> Gt ->
  SFcompare y z = Some c2 -> c2 <> Gt ->
  exists c3, SFcompare x z = Some c3 /\ c3 <> Gt.
Proof.
  destruct x, y, z; simpl; try discriminate;
    intros [= <-] H1 [= <-] H2; eexists; (split; [reflexivity|]);
    revert H1 H2; sf_order.
Qed.

Lemma number_spec x : number x = true <-> SFcompare (Prim2SF x) (Prim2SF x) <> None.
Proof.
  unfold number, is_nan. rewrite negb_involutive, eqb_spec. unfold SFeqb.
  destruct (SFcompare (Prim2SF x) (Prim2SF x)) as [c|] eqn:E.
  - apply SFcompare_refl in E. subst. split; [discriminate | reflexivity].
  - split; [discriminate | congruence].
Qed.

Lemma lt_irrefl x : lt x x = false.
Proof.
  unfold lt. rewrite ltb_spec. unfold SFltb.
  destruct (SFcompare (Prim2SF x) (Prim2SF x)) as [c|] eqn:E; [|reflexivity].
  apply SFcompare_refl in E. now subst.
Qed.

Lemma lt_trans x y z : lt x y = true -> lt y z = true -> lt x z = true.
Proof.
  unfold lt. rewrite !ltb_spec. unfold SFltb.
  destruct (SFcompare (Prim2SF x) (Prim2SF y)) as [[]|] eqn:E1; try discriminate.
  destruct (SFcompare (Prim2SF y) (Prim2SF z)) as [[]|] eqn:E2; try discriminate.
  now rewrite (SFcompare_lt_trans _ _ _ E1 E2).
Qed.

Lemma lt_le x y : lt x y = true -> le x y = true.
Proof.
  unfold lt, le. rewrite ltb_spec, leb_spec. unfold SFltb, SFleb.
  now destruct (SFcompare (Prim2SF x) (Prim2SF y)) as [[]|].
Qed.

Lemma le_refl x : number x = true -> le x x = true.
Proof.
  rewrite number_spec. unfold le. rewrite leb_spec. unfold SFleb.
  destruct (SFcompare (Prim2SF x) (Prim2SF x)) as [c|] eqn:E; [|congruence].
  apply SFcompare_refl in E. now subst.
Qed.

Lemma le_trans x y z : le x y = true -> le y z = true -> le x z = true.
Proof.
  unfold le. rewrite !leb_spec. unfold SFleb.
  destruct (SFcompare (Prim2SF x) (Prim2SF y)) as [c1|] eqn:E1; [|discriminate].
  destruct (SFcompare (Prim2SF y) (Prim2SF z)) as [c2|] eqn:E2; [|destruct c1; discriminate].
  intros H1 H2.
  destruct (@SFcompare_le_trans _ _ _ c1 c2 E1 ltac:(now destruct c1) E2 ltac:(now destruct c2))
    as (c3 & -> & H3).
  now destruct c3.
Qed.

(** On numbers the order is total: when [x < y] fails, [y <= x] holds. *)
Lemma not_lt_le x y :
  number x = true -> number y = true -> lt x y = false -> le y x = true.
Proof.
  rewrite !number_spec. intros Hx Hy. unfold lt, le.
  rewrite ltb_spec, leb_spec. unfold SFltb, SFleb.
  pose proof (SFcompare_some _ _ Hx Hy) as Hxy.
  destruct (SFcompare (Prim2SF x) (Prim2SF y)) as [c|] eqn:E; [|congruence].
  rewrite (SFcompare_opp _ _ E). now destruct c.
Qed.

Lemma lt_number_l x y : lt x y = true -> number x = true.
Proof.
  unfold lt. rewrite ltb_spec, number_spec. unfold SFltb.
  destruct (Prim2SF x), (Prim2SF y); simpl; congruence.
Qed.

Lemma lt_number_r x y : lt x y = true -> number y = true.
Proof.
  unfold lt. rewrite ltb_spec, number_spec. unfold SFltb.
  destruct (Prim2SF x), (Prim2SF y); simpl; congruence.
Qed.

Lemma le_not_lt x y : le x y = true -> lt y x = false.
Proof.
  unfold lt, le. rewrite ltb_spec, leb_spec. unfold SFltb, SFleb.
  destruct (SFcompare (Prim2SF x) (Prim2SF y)) as [c|] eqn:E; [|discriminate].
  rewrite (SFcompare_opp _ _ E). now destruct c.
Qed.

Lemma SFcompare_lt_le_trans x y z c :
  SFcompare x y = Some Lt -> SFcompare y z = Some c -> c <> Gt ->
  SFcompare x z = Some Lt.
Proof.
  destruct x, y, z; simpl; try discriminate;
    intros H1 [= <-] H2; revert H1 H2; sf_order.
Qed.

Lemma lt_le_trans x y z : lt x y = true -> le y z = true -> lt x z = true.
Proof.
  unfold lt, le. rewrite !ltb_spec, leb_spec. unfold SFltb, SFleb.
  destruct (SFcompare (Prim2SF x) (Prim2SF y)) as [[]|] eqn:E1; try discriminate.
  destruct (SFcompare (Prim2SF y) (Prim2SF z)) as [c|] eqn:E2; [|discriminate].
  intros _ H.
  rewrite (@SFcompare_lt_le_trans _ _ _ c E1 E2); [reflexivity | now destruct c].
Qed.

Lemma lt_asym x y : lt x y = true -> lt y x = false.
Proof. intros H. now apply le_not_lt, lt_le. Qed.

(** Floats that compare equal are not ordered by [<]. *)
Lemma eqb_not_lt x y : PrimFloat.eqb x y = true -> lt x y = false.
Proof.
  unfold lt. rewrite eqb_spec, ltb_spec. unfold SFeqb, SFltb.
  now destruct (SFcompare (Prim2SF x) (Prim2SF y)) as [[]|].
Qed.

Lemma eqb_not_gt x y : PrimFloat.eqb x y = true -> gt x y = false.
Proof.
  unfold gt. rewrite eqb_spec, ltb_spec. unfold SFeqb, SFltb.
  destruct (SFcompare (Prim2SF x) (Prim2SF y)) as [c|] eqn:E; [|discriminate].
  rewrite (SFcompare_opp _ _ E). now destruct c.
Qed.

(** Nothing is strictly below [float('inf')]'s opposite number, and
    [float('inf')] is strictly below nothing. *)
Lemma inf_not_lt x : lt inf x = false.
Proof.
  unfold lt, inf. rewrite ltb_spec. unfold SFltb.
  change (Prim2SF infinity) with (S754_infinity false).
  now destruct (Prim2SF x) as [| [] | | [] ? ?].
Qed.

Lemma SFcompare_le_lt_trans x y z c :
  SFcompare x y = Some c -> c <> Gt -> SFcompare y z = Some Lt ->
  SFcompare x z = Some Lt.
Proof.
  destruct x, y, z; simpl; try discriminate;
    intros [= <-] H1 H2; revert H1 H2; sf_order.
Qed.

Lemma le_lt_trans x y z : le x y = true -> lt y z = true -> lt x z = true.
Proof.
  unfold lt, le. rewrite !ltb_spec, leb_spec. unfold SFltb, SFleb.
  destruct (SFcompare (Prim2SF x) (Prim2SF y)) as [c|] eqn:E1; [|discriminate].
  destruct (SFcompare (Prim2SF y) (Prim2SF z)) as [[]|] eqn:E2; try discriminate.
  intros H _.
  rewrite (@SFcompare_le_lt_trans _ _ _ c E1 ltac:(now destruct c) E2). reflexivity.
Qed.

End FloatFacts.

(* ================================================================= *)
(** * Facts about the list operations *)

Lemma mem_In x l : Py.mem x l = true <-> In x l.
Proof.
  induction l as [|y l IH]; simpl.
  - split; [discriminate | tauto].
  - destruct (String.eqb_spec y x) as [->|Hn].
    + split; auto.
    + rewrite IH. split; [auto | intros [H|H]; [contradiction | exact H]].
Qed.

Lemma remove_first_In x l : In x l -> exists r, Py.remove_first x l = Some r.
Proof.
  induction l as [|y l IH]; simpl; [tauto|].
  intros H. destruct (String.eqb_spec y x) as [->|Hn]; [eauto|].
  destruct H as [H|H]; [contradiction|].
  destruct (IH H) as [r ->]. eauto.
Qed.

Lemma remove_first_length x l r :
  Py.remove_first x l = Some r -> List.length l = S (List.length r).
Proof.
  revert r. induction l as [|y l IH]; simpl; [discriminate|].
  intros r. destruct (String.eqb y x).
  - now intros [= <-].
  - destruct (Py.remove_first x l) as [r'|]; [|discriminate].
    intros [= <-]. simpl. now rewrite (IH r' eq_refl).
Qed.

Lemma remove_first_perm x l r : Py.remove_first x l = Some r -> Permutation l (x :: r).
Proof.
  revert r. induction l as [|y l IH]; simpl; [discriminate|].
  intros r. destruct (String.eqb_spec y x) as [->|Hn].
  - intros [= <-]. reflexivity.
  - destruct (Py.remove_first x l) as [r'|]; [|discriminate].
    intros [= <-]. rewrite (IH r' eq_refl). apply perm_swap.
Qed.





Lemma without_length var l : List.length (Py.without var l) <= List.length l.
Proof. apply filter_length_le. Qed.

Lemma without_In var l x : In x (Py.without var l) -> In x l.
Proof. unfold Py.without. rewrite filter_In. tauto. Qed.

Lemma Forall2_In_r {A B} (R : A -> B -> Prop) l l' y :
  Forall2 R l l' -> In y l' -> exists x, In x l /\ R x y.
Proof.
  induction 1 as [|x y' l l' Hxy H IH]; simpl; [tauto|].
  intros [<-|Hy]; [eauto|]. destruct (IH Hy) as (x' & Hx' & Hr). eauto.
Qed.

Lemma Forall2_In_l {A B} (R : A -> B -> Prop) l l' x :
  Forall2 R l l' -> In x l -> exists y, In y l' /\ R x y.
Proof.
  induction 1 as [|x' y l l' Hxy H IH]; simpl; [tauto|].
  intros [<-|Hx]; [eauto|]. destruct (IH Hx) as (y' & Hy' & Hr). eauto.
Qed.

(** ** The head of a sorted list *)

Lemma StronglySorted_app {A} (R : A -> A -> Prop) l1 l2 :
  StronglySorted R l1 -> StronglySorted R l2 ->
  (forall x y, In x l1 -> In y l2 -> R x y) ->
  StronglySorted R (l1 ++ l2).
Proof.
  induction l1 as [|a l1 IH]; simpl; intros H1 H2 H12; [exact H2|].
  apply StronglySorted_inv in H1 as [H1 Ha]. constructor.
  - apply IH; auto.
  - apply Forall_app. split; [exact Ha|].
    apply Forall_forall. intros y Hy. apply H12; auto.
Qed.

Lemma StronglySorted_app_inv {A} (R : A -> A -> Prop) l1 l2 :
  StronglySorted R (l1 ++ l2) ->
  StronglySorted R l1 /\ StronglySorted R l2 /\
  forall x y, In x l1 -> In y l2 -> R x y.
Proof.
  induction l1 as [|a l1 IH]; simpl; intros H.
  - repeat split; [constructor | exact H | intros x y []].
  - apply StronglySorted_inv in H as [H Ha].
    destruct (IH H) as (H1 & H2 & H12). apply Forall_app in Ha as [Ha1 Ha2].
    repeat split; [now constructor | exact H2 |].
    intros x y [<-|Hx] Hy; [|now apply H12].
    rewrite Forall_forall in Ha2. now apply Ha2.
Qed.

Lemma StronglySorted_rev {A} (R : A -> A -> Prop) l :
  StronglySorted R l -> StronglySorted (fun x y => R y x) (rev l).
Proof.
  induction 1 as [|a l H IH Ha]; simpl; [constructor|].
  apply StronglySorted_app; [exact IH | repeat constructor |].
  intros x y Hx [<-|[]]. rewrite Forall_forall in Ha. apply Ha.
  now apply in_rev.
Qed.

Lemma StronglySorted_weaken {A} (R R' : A -> A -> Prop) l :
  (forall x y, R x y -> R' x y) -> StronglySorted R l -> StronglySorted R' l.
Proof.
  intros HR. induction 1 as [|a l H IH Ha]; constructor; [exact IH|].
  eapply Forall_impl; [|exact Ha]. auto.
Qed.

Lemma StronglySorted_nth {A} (R : A -> A -> Prop) l :
  StronglySorted R l ->
  forall i j x y, i < j -> nth_error l i = Some x -> nth_error l j = Some y -> R x y.
Proof.
  induction 1 as [|a l H IH Ha]; intros i j x y Hij Hi Hj.
  - now destruct i.
  - destruct j as [|j]; [lia|]. simpl in Hj. destruct i as [|i]; simpl in Hi.
    + injection Hi as <-. rewrite Forall_forall in Ha. apply Ha.
      eapply nth_error_In; eauto.
    + eapply IH; [|exact Hi|exact Hj]. lia.
Qed.

Section Sorting.

Context {A : Type} (key : A -> float).


(** *** The sorted list holds the elements of the list *)

Lemma ascending_run_app l : forall prev,
  fst (Py.ascending_run key prev l) ++ snd (Py.ascending_run key prev l) = l.
Proof.
  induction l as [|x l IH]; intros prev; simpl; [reflexivity|].
  destruct (PyFloat.lt (key x) (key prev)); [reflexivity|].
  specialize (IH x). destruct (Py.ascending_run key x l) as [run rest].
  simpl in *. now rewrite IH.
Qed.

Lemma descending_run_app l : forall prev,
  fst (Py.descending_run key prev l) ++ snd (Py.descending_run key prev l) = l.
Proof.
  induction l as [|x l IH]; intros prev; simpl; [reflexivity|].
  destruct (PyFloat.lt (key x) (key prev)); [|reflexivity].
  specialize (IH x). destruct (Py.descending_run key x l) as [run rest].
  simpl in *. now rewrite IH.
Qed.

Lemma count_run_perm l :
  Permutation (fst (Py.count_run key l) ++ snd (Py.count_run key l)) l.
Proof.
  destruct l as [|x [|y l]]; try reflexivity.
  unfold Py.count_run. destruct (PyFloat.lt (key y) (key x)).
  - pose proof (descending_run_app (y :: l) x) as H.
    destruct (Py.descending_run key x (y :: l)) as [run rest].
    cbn [fst snd] in *. rewrite <- H, <- (Permutation_rev (x :: run)).
    reflexivity.
  - pose proof (ascending_run_app (y :: l) x) as H.
    destruct (Py.ascending_run key x (y :: l)) as [run rest].
    cbn [fst snd] in *. now rewrite <- H.
Qed.

Lemma binary_insert_perm a pivot :
  Permutation (Py.binary_insert key a pivot) (pivot :: a).
Proof.
  unfold Py.binary_insert. cbv zeta.
  rewrite <- Permutation_middle. now rewrite firstn_skipn.
Qed.

Lemma binarysort_perm rest : forall run,
  Permutation (Py.binarysort key run rest) (run ++ rest).
Proof.
  unfold Py.binarysort.
  induction rest as [|x rest IH]; intros run; simpl; [now rewrite app_nil_r|].
  rewrite IH, binary_insert_perm. now rewrite <- Permutation_middle.
Qed.

Lemma sort_by_perm l : Permutation (Py.sort_by key l) l.
Proof.
  unfold Py.sort_by. pose proof (count_run_perm l) as H.
  destruct (Py.count_run key l) as [run rest]. simpl in H.
  now rewrite binarysort_perm.
Qed.

Lemma sort_by_nil l : Py.sort_by key l = [] -> l = [].
Proof.
  intros H. apply Permutation_nil. rewrite <- H. apply sort_by_perm.
Qed.

Lemma sort_by_head_In l c rest : Py.sort_by key l = c :: rest -> In c l.
Proof.
  intros H. apply (Permutation_in c (sort_by_perm l)). rewrite H. now left.
Qed.

(** *** On number_keys key the sorted list is in order *)

Lemma le_key_trans x y z : key_le key x y -> key_le key y z -> key_le key x z.
Proof. apply FloatFacts.le_trans. Qed.

Lemma ascending_run_sorted l : forall prev,
  number_keys key (prev :: l) ->
  StronglySorted (key_le key) (prev :: fst (Py.ascending_run key prev l)).
Proof.
  intros prev Hn. apply Sorted_StronglySorted; [exact le_key_trans|].
  revert prev Hn. induction l as [|x l IH]; intros prev Hn; simpl.
  - repeat constructor.
  - destruct (PyFloat.lt (key x) (key prev)) eqn:E; [repeat constructor|].
    assert (Hx : number_keys key (x :: l)) by (intros y Hy; apply Hn; now right).
    specialize (IH x Hx). destruct (Py.ascending_run key x l) as [run rest].
    simpl in *. constructor; [exact IH|]. constructor.
    apply FloatFacts.not_lt_le; [apply Hn; right; now left | apply Hn; now left | exact E].
Qed.

Lemma descending_run_sorted l : forall prev,
  StronglySorted (fun x y => key_lt key y x) (prev :: fst (Py.descending_run key prev l)).
Proof.
  intros prev. apply Sorted_StronglySorted.
  { intros x y z Hxy Hyz. eapply FloatFacts.lt_trans; eauto. }
  revert prev. induction l as [|x l IH]; intros prev; simpl.
  - repeat constructor.
  - destruct (PyFloat.lt (key x) (key prev)) eqn:E; [|repeat constructor].
    specialize (IH x). destruct (Py.descending_run key x l) as [run rest].
    simpl in *. constructor; [exact IH|]. now constructor.
Qed.

Lemma count_run_sorted l :
  number_keys key l -> StronglySorted (key_le key) (fst (Py.count_run key l)).
Proof.
  intros Hn. destruct l as [|x [|y l]]; try solve [repeat constructor].
  unfold Py.count_run. destruct (PyFloat.lt (key y) (key x)).
  - pose proof (descending_run_sorted (y :: l) x) as H.
    destruct (Py.descending_run key x (y :: l)) as [run rest].
    cbn [fst snd] in *. apply StronglySorted_rev in H.
    eapply StronglySorted_weaken; [|exact H].
    intros a b. apply FloatFacts.lt_le.
  - pose proof (ascending_run_sorted Hn) as H.
    destruct (Py.ascending_run key x (y :: l)) as [run rest]. exact H.
Qed.

(** The binary search leaves the elements not above the pivot before the
    place it finds, and the elements above it after. *)
Lemma bisect_spec pivot a :
  StronglySorted (key_le key) a -> number_keys key (pivot :: a) ->
  forall fuel l r,
    l <= r -> r <= List.length a -> r - l <= fuel ->
    (forall i x, i < l -> nth_error a i = Some x -> key_le key x pivot) ->
    (forall i x, r <= i -> nth_error a i = Some x -> key_lt key pivot x) ->
    let k := Py.bisect key pivot a fuel l r in
    (forall i x, i < k -> nth_error a i = Some x -> key_le key x pivot) /\
    (forall i x, k <= i -> nth_error a i = Some x -> key_lt key pivot x).
Proof.
  intros Hs Hn. induction fuel as [|fuel IH]; intros l r Hlr Hr Hf Hlo Hhi;
    cbn [Py.bisect]; cbv zeta.
  - assert (l = r) by lia. subst r. auto.
  - destruct (l <? r) eqn:El.
    2:{ apply Nat.ltb_ge in El. assert (l = r) by lia. subst r. auto. }
    apply Nat.ltb_lt in El.
    assert (Hp : (r - l) / 2 < r - l) by (apply Nat.div_lt; lia).
    set (p := l + (r - l) / 2) in *.
    assert (Hpl : l <= p < r) by (unfold p; lia).
    destruct (nth_error a p) as [x|] eqn:Ex.
    2:{ apply nth_error_None in Ex. lia. }
    assert (Hx : PyFloat.number (key x) = true)
      by (apply Hn; right; eapply nth_error_In; eauto).
    assert (Hpiv : PyFloat.number (key pivot) = true) by (apply Hn; now left).
    destruct (PyFloat.lt (key pivot) (key x)) eqn:E.
    + apply IH; try lia; [exact Hlo|].
      intros i y Hi Hy. destruct (Nat.eq_dec i p) as [->|Hne].
      * rewrite Ex in Hy. injection Hy as <-. exact E.
      * eapply FloatFacts.lt_le_trans; [exact E|].
        eapply (StronglySorted_nth Hs) with (i := p) (j := i); eauto. lia.
    + apply IH; try lia; [|exact Hhi].
      assert (Hxp : key_le key x pivot) by (apply FloatFacts.not_lt_le; auto).
      intros i y Hi Hy. destruct (Nat.eq_dec i p) as [->|Hne].
      * rewrite Ex in Hy. now injection Hy as <-.
      * eapply le_key_trans; [|exact Hxp].
        eapply (StronglySorted_nth Hs) with (i := i) (j := p); eauto. lia.
Qed.

Lemma binary_insert_sorted a pivot :
  StronglySorted (key_le key) a -> number_keys key (pivot :: a) ->
  StronglySorted (key_le key) (Py.binary_insert key a pivot).
Proof.
  intros Hs Hn. unfold Py.binary_insert. cbv zeta.
  destruct (@bisect_spec pivot a Hs Hn (List.length a) 0 (List.length a))
    as [Hlo Hhi]; try lia.
  { intros i x Hi Hx. assert (nth_error a i <> None) by congruence.
    apply nth_error_Some in H. exfalso. lia. }
  set (k := Py.bisect key pivot a (List.length a) 0 (List.length a)) in *.
  assert (Hfirst : forall x, In x (firstn k a) -> key_le key x pivot).
  { intros x Hx. apply In_nth_error in Hx as [i Hi].
    assert (Hik : i < k).
    { assert (nth_error (firstn k a) i <> None) by congruence.
      apply nth_error_Some in H. rewrite length_firstn in H. lia. }
    rewrite nth_error_firstn in Hi. apply Nat.ltb_lt in Hik as Hb.
    rewrite Hb in Hi. eauto. }
  assert (Hskip : forall x, In x (skipn k a) -> key_lt key pivot x).
  { intros x Hx. apply In_nth_error in Hx as [i Hi].
    rewrite nth_error_skipn in Hi. eapply Hhi; [|exact Hi]. lia. }
  rewrite <- (firstn_skipn k a) in Hs.
  apply StronglySorted_app_inv in Hs as (H1 & H2 & H12).
  apply StronglySorted_app; [exact H1| |].
  - constructor; [exact H2|]. apply Forall_forall. intros y Hy.
    apply FloatFacts.lt_le. now apply Hskip.
  - intros x y Hx [<-|Hy]; [now apply Hfirst|]. now apply H12.
Qed.

Lemma binarysort_sorted rest : forall run,
  StronglySorted (key_le key) run -> number_keys key (run ++ rest) ->
  StronglySorted (key_le key) (Py.binarysort key run rest).
Proof.
  unfold Py.binarysort.
  induction rest as [|x rest IH]; intros run Hs Hn; simpl; [exact Hs|].
  apply IH.
  - apply binary_insert_sorted; [exact Hs|].
    intros y [<-|Hy]; apply Hn, in_or_app; [right; now left | now left].
  - intros y Hy. apply in_app_or in Hy as [Hy|Hy].
    + apply (Permutation_in _ (binary_insert_perm run x)) in Hy.
      destruct Hy as [<-|Hy]; apply Hn, in_or_app; [right; now left | now left].
    + apply Hn, in_or_app. right. now right.
Qed.

Lemma sort_by_sorted l :
  number_keys key l -> StronglySorted (key_le key) (Py.sort_by key l).
Proof.
  intros Hn. unfold Py.sort_by.
  pose proof (count_run_perm l) as Hp. pose proof (count_run_sorted Hn) as Hs.
  destruct (Py.count_run key l) as [run rest]. simpl in *.
  apply binarysort_sorted; [exact Hs|].
  intros x Hx. apply Hn. now apply (Permutation_in _ Hp).
Qed.

(** When every key is a number, the head of the sorted list has the least key. *)
Lemma sort_by_head_least l c :
  hd_error (Py.sort_by key l) = Some c ->
  (forall x, In x l -> PyFloat.number (key x) = true) ->
  forall x, In x l -> PyFloat.le (key c) (key x) = true.
Proof.
  intros Hc Hn x Hx. pose proof (sort_by_sorted Hn) as Hs.
  assert (Hcl : In c l).
  { destruct (Py.sort_by key l) as [|h t] eqn:E; [discriminate|].
    injection Hc as ->. eapply sort_by_head_In; eauto. }
  apply (Permutation_in _ (Permutation_sym (sort_by_perm l))) in Hx.
  destruct (Py.sort_by key l) as [|h t]; [discriminate|]. injection Hc as ->.
  apply StronglySorted_inv in Hs as [_ Hall].
  destruct Hx as [<-|Hx].
  - apply FloatFacts.le_refl. now apply Hn.
  - rewrite Forall_forall in Hall. now apply Hall.
Qed.

End Sorting.

(* ================================================================= *)
(** * Facts about the effects *)

Lemma bind_Ok {A B} (m : M A) (f : A -> M B) w w' b :
  bind m f w = (w', Ok b) ->
  exists w1 a, m w = (w1, Ok a) /\ f a w1 = (w', Ok b).
Proof.
  unfold bind. destruct (m w) as [w1 [a|e|]]; try discriminate. eauto.
Qed.

Lemma or_raise_Ok {A} e (o : option A) w w' a :
  or_raise e o w = (w', Ok a) -> o = Some a /\ w' = w.
Proof. destruct o; simpl; unfold ret, raise; intros [= -> ->]; auto. Qed.

Lemma ret_Ok {A} (a b : A) w w' : ret a w = (w', Ok b) -> a = b /\ w' = w.
Proof. unfold ret. intros [= -> ->]. auto. Qed.

Lemma frames_ret {A} (a : A) : frames (ret a).
Proof. now intros w. Qed.

Lemma frames_raise {A} e : frames (@raise A e).
Proof. now intros w. Qed.

Lemma frames_out_of_fuel {A} : frames (@out_of_fuel A).
Proof. now intros w. Qed.

Lemma frames_bind {A B} (m : M A) (f : A -> M B) :
  frames m -> (forall a, frames (f a)) -> frames (bind m f).
Proof.
  intros Hm Hf w. unfold bind. specialize (Hm w).
  destruct (m w) as [w1 [a|e|]]; simpl in *; auto.
  now rewrite Hf.
Qed.

Lemma frames_or_raise {A} e (o : option A) : frames (or_raise e o).
Proof. destruct o; [apply frames_ret | apply frames_raise]. Qed.

Lemma frames_for_each {A B} (f : A -> M B) l :
  (forall x, frames (f x)) -> frames (for_each f l).
Proof.
  intros Hf. induction l as [|x l IH]; simpl; [apply frames_ret|].
  apply frames_bind; [apply Hf|]. intros y.
  apply frames_bind; [apply IH|]. intros ys. apply frames_ret.
Qed.

Lemma frames_while {S} fuel cond (body : S -> M S) s :
  (forall s, frames (body s)) -> frames (while fuel cond body s).
Proof.
  intros Hb. revert s. induction fuel as [|n IH]; intros s; simpl;
    destruct (cond s); try apply frames_ret; try apply frames_out_of_fuel.
  apply frames_bind; auto.
Qed.

Lemma frames_loop {S} fuel (body : S -> M (ctl S)) s :
  (forall s, frames (body s)) -> frames (loop fuel body s).
Proof.
  intros Hb. revert s. induction fuel as [|n IH]; intros s; simpl;
    [apply frames_out_of_fuel|].
  apply frames_bind; auto. intros [s'|s']; [apply IH | apply frames_ret].
Qed.

Lemma frames_data_columns : frames data_columns.
Proof. now intros w. Qed.

Lemma frames_print l : frames (print l).
Proof. now intros w. Qed.

Lemma frames_when b m : frames m -> frames (when b m).
Proof. destruct b; simpl; auto using frames_ret. Qed.

Lemma frames_Ok {A} (m : M A) w w' r : frames m -> m w = (w', r) -> w_data w' = w_data w.
Proof. intros H E. specialize (H w). now rewrite E in H. Qed.

(** The results a loop over a list collected, one per element. *)
Lemma for_each_Ok {A B} (f : A -> M B) (R : A -> B -> Prop) d :
  (forall x w w' y, w_data w = d -> f x w = (w', Ok y) -> w_data w' = d /\ R x y) ->
  forall l w w' ys, w_data w = d -> for_each f l w = (w', Ok ys) ->
    w_data w' = d /\ Forall2 R l ys.
Proof.
  intros Hf. induction l as [|x l IH]; intros w w' ys Hw; simpl.
  - intros [<- ->]%ret_Ok. auto.
  - intros (w1 & y & E1 & E)%bind_Ok. apply bind_Ok in E as (w2 & ys' & E2 & E).
    apply ret_Ok in E as [<- ->].
    destruct (Hf _ _ _ _ Hw E1) as [Hw1 Hy].
    destruct (IH _ _ _ Hw1 E2) as [Hw2 Hys]. auto.
Qed.

(** Invariants of the two loop forms. *)
Lemma while_Ok {S} (cond : S -> bool) (body : S -> M S) d (I : S -> Prop) :
  (forall s w w' s', w_data w = d -> I s -> cond s = true ->
     body s w = (w', Ok s') -> w_data w' = d /\ I s') ->
  forall fuel s w w' s', w_data w = d -> I s ->
    while fuel cond body s w = (w', Ok s') ->
    w_data w' = d /\ I s' /\ cond s' = false.
Proof.
  intros Hb. induction fuel as [|n IH]; intros s w w' s' Hw Hs; simpl;
    destruct (cond s) eqn:Ec; try discriminate.
  - intros [<- ->]%ret_Ok. auto.
  - intros (w1 & s1 & E1 & E)%bind_Ok.
    destruct (Hb _ _ _ _ Hw Hs Ec E1) as [Hw1 Hs1]. eauto.
  - intros [<- ->]%ret_Ok. auto.
Qed.

Lemma loop_Ok {S} (body : S -> M (ctl S)) d (I Q : S -> Prop) :
  (forall s w w' c, w_data w = d -> I s -> body s w = (w', Ok c) ->
     w_data w' = d /\ match c with Continue s' => I s' | Break s' => Q s' end) ->
  forall fuel s w w' s', w_data w = d -> I s ->
    loop fuel body s w = (w', Ok s') -> w_data w' = d /\ Q s'.
Proof.
  intros Hb. induction fuel as [|n IH]; intros s w w' s' Hw Hs; simpl; [discriminate|].
  intros (w1 & c & E1 & E)%bind_Ok.
  destruct (Hb _ _ _ _ Hw Hs E1) as [Hw1 Hc]. destruct c as [s1|s1].
  - eauto.
  - apply ret_Ok in E as [<- ->]. auto.
Qed.

(** The rounds a loop ran, as a chain of steps. *)
Lemma while_chain {S} (cond : S -> bool) (body : S -> M S) d (step : S -> S -> Prop) :
  (forall s w w' s', w_data w = d -> cond s = true ->
     body s w = (w', Ok s') -> w_data w' = d /\ step s s') ->
  forall fuel s w w' s', w_data w = d ->
    while fuel cond body s w = (w', Ok s') ->
    w_data w' = d /\ clos_refl_trans_1n S step s s' /\ cond s' = false.
Proof.
  intros Hb. induction fuel as [|n IH]; intros s w w' s' Hw; simpl;
    destruct (cond s) eqn:Ec; try discriminate.
  - intros [<- ->]%ret_Ok. repeat split; auto. constructor.
  - intros (w1 & s1 & E1 & E)%bind_Ok.
    destruct (Hb _ _ _ _ Hw Ec E1) as [Hw1 Hs1].
    destruct (IH _ _ _ _ Hw1 E) as (Hw' & Hc & He).
    repeat split; auto. econstructor; eauto.
  - intros [<- ->]%ret_Ok. repeat split; auto. constructor.
Qed.

Lemma loop_chain {S} (body : S -> M (ctl S)) d (step : S -> S -> Prop) (stop : S -> Prop) :
  (forall s w w' c, w_data w = d -> body s w = (w', Ok c) ->
     w_data w' = d /\
     match c with Continue s' => step s s' | Break s' => s' = s /\ stop s end) ->
  forall fuel s w w' s', w_data w = d ->
    loop fuel body s w = (w', Ok s') ->
    w_data w' = d /\ clos_refl_trans_1n S step s s' /\ stop s'.
Proof.
  intros Hb. induction fuel as [|n IH]; intros s w w' s' Hw; simpl; [discriminate|].
  intros (w1 & c & E1 & E)%bind_Ok.
  destruct (Hb _ _ _ _ Hw E1) as [Hw1 Hc]. destruct c as [s1|s1].
  - destruct (IH _ _ _ _ Hw1 E) as (Hw' & Hch & Hst).
    repeat split; auto. econstructor; eauto.
  - apply ret_Ok in E as [<- ->]. destruct Hc as [-> Hst].
    repeat split; auto. constructor.
Qed.

(** An invariant of the steps holds at the end of a chain. *)
Lemma chain_invariant {S} (step : S -> S -> Prop) (I : S -> Prop) :
  (forall s s', I s -> step s s' -> I s') ->
  forall s s', clos_refl_trans_1n S step s s' -> I s -> I s'.
Proof. intros Hs s s' H. induction H; eauto. Qed.

Lemma least_by_sorted {A} (key : A -> float) (l : list A) c :
  hd_error (Py.sort_by key l) = Some c -> least_by key c l.
Proof.
  intros H. split.
  - destruct (Py.sort_by key l) as [|h t] eqn:E; [discriminate|].
    injection H as ->. eapply sort_by_head_In; eauto.
  - now apply sort_by_head_least.
Qed.

(** ** Computations that need no loop budget, and loops that get enough *)

Lemma ends_ret {A} (a : A) : ends (ret a).
Proof. intros w. discriminate. Qed.

Lemma ends_raise {A} e : ends (@raise A e).
Proof. intros w. discriminate. Qed.

Lemma ends_bind {A B} (m : M A) (f : A -> M B) :
  ends m -> (forall a, ends (f a)) -> ends (bind m f).
Proof.
  intros Hm Hf w. unfold bind. specialize (Hm w).
  destruct (m w) as [w1 [a|e|]]; simpl in *; [apply Hf | discriminate | congruence].
Qed.

Lemma ends_or_raise {A} e (o : option A) : ends (or_raise e o).
Proof. destruct o; [apply ends_ret | apply ends_raise]. Qed.

Lemma ends_for_each {A B} (f : A -> M B) l :
  (forall x, ends (f x)) -> ends (for_each f l).
Proof.
  intros Hf. induction l as [|x l IH]; simpl; [apply ends_ret|].
  apply ends_bind; [apply Hf|]. intros y.
  apply ends_bind; [apply IH|]. intros ys. apply ends_ret.
Qed.

Lemma ends_print l : ends (print l).
Proof. intros w. discriminate. Qed.

Lemma ends_when b m : ends m -> ends (when b m).
Proof. destruct b; simpl; auto using ends_ret. Qed.

Lemma ends_data_columns : ends data_columns.
Proof. intros w. discriminate. Qed.

Lemma ends_ols_fit ols formula : ends (ols_fit ols formula).
Proof. intros w. unfold ols_fit. destruct (ols formula (w_data w)); discriminate. Qed.

Ltac ends_step :=
  first
    [ match goal with H : forall _, _ |- ends _ => apply H end
    | apply ends_ret | apply ends_raise | apply ends_or_raise
    | apply ends_data_columns | apply ends_print | apply ends_ols_fit
    | apply ends_when | apply ends_for_each | apply ends_bind
    | match goal with
      | |- forall _, _ => intro
      | |- ends (match ?x with _ => _ end) => destruct x
      end ].

Ltac ends_tac := cbv zeta; repeat ends_step.


Lemma loop_ends {S} (body : S -> M (ctl S)) (mu : S -> nat) :
  (forall s, ends (body s)) ->
  (forall s w w' s', body s w = (w', Ok (Continue s')) -> mu s' < mu s) ->
  forall fuel s w, mu s < fuel -> snd (loop fuel body s w) <> OutOfFuel.
Proof.
  intros He Hmu. induction fuel as [|n IH]; intros s w Hlt; [lia|].
  simpl. unfold bind. destruct (body s w) as [w1 [[s1|s1]|e|]] eqn:Eb.
  - apply IH. specialize (Hmu _ _ _ _ Eb). lia.
  - discriminate.
  - discriminate.
  - pose proof (He s w) as H. now rewrite Eb in H.
Qed.

(* ================================================================= *)
(** * The data table is never written *)

Section Frame.

Variable ols : string -> DataFrame -> option RegressionResults.
Variable set_iter : list string -> list string.

Lemma frames_ols_fit formula : frames (ols_fit ols formula).
Proof. intros w. unfold ols_fit. now destruct (ols formula (w_data w)). Qed.

Ltac frame_step :=
  first
    [ match goal with H : forall _, _ |- frames _ => apply H end
    | apply frames_ret | apply frames_raise | apply frames_out_of_fuel
    | apply frames_or_raise | apply frames_data_columns | apply frames_print
    | apply frames_ols_fit | apply frames_when | apply frames_for_each
    | apply frames_while | apply frames_loop | apply frames_bind
    | match goal with
      | |- forall _, _ => intro
      | |- frames (match ?x with _ => _ end) => destruct x
      end ].

Ltac frame := cbv zeta; repeat frame_step.

Lemma frames_forward_round response sl s :
  frames (forward_round ols response sl s).
Proof. unfold forward_round, forward_candidate. frame. Qed.

Lemma frames_aic_round response s : frames (aic_round ols response s).
Proof. unfold aic_round, aic_candidate. frame. Qed.

Lemma frames_best_inclusion response s : frames (best_inclusion ols response s).
Proof. unfold best_inclusion, inclusion_candidate. frame. Qed.

Lemma frames_best_removal response s : frames (best_removal ols response s).
Proof. unfold best_removal, removal_candidate. frame. Qed.

Lemma frames_stepwise_round response tin tout verbose s :
  frames (stepwise_round ols response tin tout verbose s).
Proof.
  unfold stepwise_round.
  apply frames_bind; [apply frames_best_inclusion|]. intros inc.
  apply frames_bind; [apply frames_best_removal|]. intros rem.
  unfold stepwise_move. frame.
Qed.

Lemma frames_pvalue_round response alpha verbose s :
  frames (pvalue_round ols response alpha verbose s).
Proof. unfold pvalue_round. frame. Qed.

Lemma frames_forward_selection fuel response sl :
  frames (forward_selection ols set_iter fuel response sl).
Proof. unfold forward_selection. pose proof frames_forward_round. frame. Qed.

Lemma frames_backward_selection_aic fuel response :
  frames (backward_selection_aic ols fuel response).
Proof. unfold backward_selection_aic. pose proof frames_aic_round. frame. Qed.

Lemma frames_stepwise_selection_both fuel response initial_list tin tout verbose :
  frames (stepwise_selection_both ols set_iter fuel response initial_list tin tout verbose).
Proof. unfold stepwise_selection_both. pose proof frames_stepwise_round. frame. Qed.

Lemma frames_backward_selection_pvalue fuel response alpha verbose :
  frames (backward_selection_pvalue ols fuel response alpha verbose).
Proof. unfold backward_selection_pvalue. pose proof frames_pvalue_round. frame. Qed.

End Frame.

(* ================================================================= *)
(** * Forward selection *)

Section Forward.

Variable ols : string -> DataFrame -> option RegressionResults.
Variable set_iter : list string -> list string.

Lemma ols_fit_Ok formula w w' model :
  ols_fit ols formula w = (w', Ok model) ->
  ols formula (w_data w) = Some model /\ w_data w' = w_data w.
Proof.
  unfold ols_fit. destruct (ols formula (w_data w)); intros [= <- <-]; auto.
Qed.

Lemma forward_candidate_Ok response selected candidate w w' e :
  forward_candidate ols response selected candidate w = (w', Ok e) ->
  w_data w' = w_data w /\ forward_fit ols (w_data w) response selected candidate e.
Proof.
  unfold forward_candidate.
  intros (w1 & model & E1 & E)%bind_Ok.
  apply bind_Ok in E as (w2 & pval & E2 & E).
  apply ret_Ok in E as [<- ->]. apply or_raise_Ok in E2 as [E2 ->].
  assert (Ef : (if Py.truthy selected
                then formula_terms response (selected ++ [candidate])
                else (response ++ " ~ " ++ candidate)%string)
               = formula_terms response (selected ++ [candidate]))
    by (destruct selected; reflexivity).
  rewrite Ef in E1. apply ols_fit_Ok in E1 as [E1 Hw].
  split; [exact Hw|]. exists model. auto.
Qed.

(** One round of the loop does what the specification says of a round. *)
Lemma forward_round_Ok response sl s w w' s' :
  forward_round ols response sl s w = (w', Ok s') ->
  w_data w' = w_data w /\ forward_round_spec ols (w_data w) response sl s s'.
Proof.
  unfold forward_round. intros (w1 & pvals & E1 & E)%bind_Ok.
  apply for_each_Ok with (R := forward_fit ols (w_data w) response (fw_selected s))
           (d := w_data w) in E1 as [Hw1 Hfits]; [| |reflexivity].
  2:{ intros x v v' y Hv Ex. apply forward_candidate_Ok in Ex as [Hv' Hx].
      rewrite Hv in *. auto. }
  destruct (Py.sort_by snd pvals) as [|[best_candidate best_pval] rest] eqn:Es;
    [discriminate|].
  assert (Hleast : least_by snd (best_candidate, best_pval) pvals)
    by (apply least_by_sorted; now rewrite Es).
  destruct (PyFloat.lt best_pval sl) eqn:Elt.
  - apply bind_Ok in E as (w2 & remaining_vars & E2 & E).
    apply or_raise_Ok in E2 as [E2 ->]. apply ret_Ok in E as [<- ->].
    split; [exact Hw1|]. exists pvals, best_candidate, best_pval.
    simpl. rewrite Es, Elt. eauto 6.
  - apply ret_Ok in E as [<- ->].
    split; [exact Hw1|]. exists pvals, best_candidate, best_pval.
    simpl. rewrite Es, Elt. auto.
Qed.

Lemma forward_cond_true s :
  forward_cond s = true -> fw_changed s = true /\ fw_remaining s <> [].
Proof.
  unfold forward_cond. intros [H1 H2]%andb_true_iff. split; [exact H1|].
  destruct (fw_remaining s); [discriminate | congruence].
Qed.

Lemma forward_cond_false s : forward_cond s = false -> forward_done s.
Proof.
  unfold forward_cond, forward_done. intros [H|H]%andb_false_iff; [now left|].
  right. destruct (fw_remaining s); [reflexivity | discriminate].
Qed.

(** The rounds of a call that returns, and the final fit. *)
Lemma forward_selection_chain fuel response sl w w' model selected_vars :
  forward_selection ols set_iter fuel response sl w = (w', Ok (model, selected_vars)) ->
  exists remaining_vars s,
    Py.remove_first response (set_iter (columns (w_data w))) = Some remaining_vars /\
    clos_refl_trans_1n _ (forward_step ols (w_data w) response sl)
      (mkFwd remaining_vars [] true) s /\
    forward_done s /\
    selected_vars = fw_selected s /\
    ols (formula_of response selected_vars) (w_data w) = Some model.
Proof.
  unfold forward_selection.
  intros (w1 & cols & E1 & E)%bind_Ok. injection E1 as <- <-.
  apply bind_Ok in E as (w2 & remaining_vars & E2 & E).
  apply or_raise_Ok in E2 as [E2 ->].
  apply bind_Ok in E as (w3 & s & E3 & E).
  apply bind_Ok in E as (w4 & final_model & E4 & E).
  apply ret_Ok in E as [[= <- <-] ->].
  apply while_chain with (d := w_data w)
           (step := forward_step ols (w_data w) response sl) in E3
    as (Hw3 & Hchain & Hcond); [| |reflexivity].
  2:{ intros s0 v v' s1 Hv Hc Er. apply forward_round_Ok in Er as [Hv' Hr].
      rewrite Hv in *. apply forward_cond_true in Hc as [Hc1 Hc2].
      split; [exact Hv'|]. now repeat split. }
  apply ols_fit_Ok in E4 as [E4 _]. rewrite Hw3 in E4.
  exists remaining_vars, s. repeat split; auto using forward_cond_false.
Qed.





End Forward.


(* ================================================================= *)
(** * Backward elimination by AIC *)

Section BackwardAic.

Variable ols : string -> DataFrame -> option RegressionResults.

Lemma aic_candidate_Ok response remaining var w w' c :
  aic_candidate ols response remaining var w = (w', Ok c) ->
  w_data w' = w_data w /\
  removal_fit ols (w_data w) (formula_terms response) remaining var c.
Proof.
  unfold aic_candidate. intros (w1 & model & E1 & E)%bind_Ok.
  apply ret_Ok in E as [<- ->]. apply ols_fit_Ok in E1 as [E1 Hw].
  split; [exact Hw|]. exists model. auto.
Qed.

Lemma aic_round_Ok response s w w' c :
  aic_round ols response s w = (w', Ok c) ->
  w_data w' = w_data w /\
  match c with
  | Continue s' => aic_commit ols (w_data w) response s s'
  | Break s' => s' = s /\ aic_stop ols (w_data w) response s
  end.
Proof.
  unfold aic_round. intros (w1 & aic_values & E1 & E)%bind_Ok.
  apply for_each_Ok
    with (R := removal_fit ols (w_data w) (formula_terms response) (ba_remaining s))
         (d := w_data w) in E1 as [Hw1 Hfits]; [| |reflexivity].
  2:{ intros x v v' y Hv Ex. apply aic_candidate_Ok in Ex as [Hv' Hx].
      rewrite Hv in *. auto. }
  destruct (Py.sort_by aic_key aic_values)
    as [|[[best_candidate best_aic] best_model] rest] eqn:Es; [discriminate|].
  assert (Hbest : best_aic_removal_of ols (w_data w) response s
                    (best_candidate, best_aic, best_model)).
  { exists aic_values. split; [exact Hfits|]. apply least_by_sorted. now rewrite Es. }
  destruct (PyFloat.lt best_aic (ba_aic s)) eqn:Elt.
  - apply bind_Ok in E as (w2 & remaining_vars & E2 & E).
    apply or_raise_Ok in E2 as [E2 ->]. apply ret_Ok in E as [<- ->].
    split; [exact Hw1|].
    exists best_candidate, best_aic, best_model, remaining_vars. auto.
  - apply ret_Ok in E as [<- ->].
    split; [exact Hw1|]. split; [reflexivity|].
    exists best_candidate, best_aic, best_model. auto.
Qed.



(** The result of a call that returns, through the committed removals. *)
Lemma backward_selection_aic_chain fuel response w w' model selected_vars :
  backward_selection_aic ols fuel response w = (w', Ok (model, selected_vars)) ->
  exists remaining_vars full_model s,
    Py.remove_first response (columns (w_data w)) = Some remaining_vars /\
    ols (formula_terms response remaining_vars) (w_data w) = Some full_model /\
    clos_refl_trans_1n _ (aic_commit ols (w_data w) response)
      (mkAic remaining_vars full_model (aic full_model)) s /\
    aic_stop ols (w_data w) response s /\
    model = ba_model s /\ selected_vars = ba_remaining s.
Proof.
  unfold backward_selection_aic.
  intros (w1 & cols & E1 & E)%bind_Ok. injection E1 as <- <-.
  apply bind_Ok in E as (w2 & remaining_vars & E2 & E).
  apply or_raise_Ok in E2 as [E2 ->].
  apply bind_Ok in E as (w3 & full_model & E3 & E).
  apply ols_fit_Ok in E3 as [E3 Hw3].
  apply bind_Ok in E as (w4 & s & E4 & E).
  apply ret_Ok in E as [[= <- <-] ->].
  apply loop_chain with (d := w_data w)
         (step := aic_commit ols (w_data w) response)
         (stop := aic_stop ols (w_data w) response) in E4
    as (Hw4 & Hchain & Hstop); [| |exact Hw3].
  2:{ intros s0 v v' c Hv Er. apply aic_round_Ok in Er as [Hv' Hr].
      rewrite Hv in *. auto. }
  exists remaining_vars, full_model, s. auto 10.
Qed.





End BackwardAic.

(* ================================================================= *)
(** * Backward elimination by p-value *)

Lemma lt_nan_r x y : PyFloat.number y = false -> PyFloat.lt x y = false.
Proof.
  intros Hy. destruct (PyFloat.lt x y) eqn:E; [|reflexivity].
  apply FloatFacts.lt_number_r in E. congruence.
Qed.

Lemma largest_spec s : forall best,
  PyFloat.number (snd best) = true ->
  (forall e, In e s -> PyFloat.number (snd e) = true) ->
  In (Pandas.largest best s) (best :: s) /\
  PyFloat.number (snd (Pandas.largest best s)) = true /\
  forall e, In e (best :: s) ->
    PyFloat.lt (snd (Pandas.largest best s)) (snd e) = false.
Proof.
  induction s as [|a s IH]; intros best Hb Hs; simpl.
  - repeat split; auto. intros e [<-|[]]. apply FloatFacts.lt_irrefl.
  - assert (Ha : PyFloat.number (snd a) = true) by (apply Hs; now left).
    assert (Hs' : forall e, In e s -> PyFloat.number (snd e) = true)
      by (intros; apply Hs; now right).
    destruct (PyFloat.lt (snd best) (snd a)) eqn:Elt.
    + destruct (IH a Ha Hs') as (Hin & Hnum & Hmax).
      split; [now right|]. split; [exact Hnum|].
      intros e [<-|He]; [|now apply Hmax].
      apply FloatFacts.lt_asym.
      eapply FloatFacts.lt_le_trans; [exact Elt|].
      apply FloatFacts.not_lt_le; auto. apply Hmax. now left.
    + destruct (IH best Hb Hs') as (Hin & Hnum & Hmax).
      split; [destruct Hin as [Hin|Hin]; [now left | now right; right]|].
      split; [exact Hnum|].
      intros e [<-|[<-|He]]; [apply Hmax; now left | | apply Hmax; now right].
      apply FloatFacts.le_not_lt.
      eapply FloatFacts.le_trans.
      * apply FloatFacts.not_lt_le; [exact Hb | exact Ha | exact Elt].
      * apply FloatFacts.not_lt_le; auto. apply Hmax. now left.
Qed.

Lemma first_largest_Some s r :
  Pandas.first_largest s = Some r ->
  In r s /\ PyFloat.number (snd r) = true /\
  forall e, In e s -> PyFloat.lt (snd r) (snd e) = false.
Proof.
  unfold Pandas.first_largest, Pandas.numbers.
  destruct (filter (fun e => PyFloat.number (snd e)) s) as [|b t] eqn:Ef; [discriminate|].
  intros [= <-].
  assert (Hall : forall e, In e (b :: t) <-> In e s /\ PyFloat.number (snd e) = true)
    by (intros e; rewrite <- Ef; apply filter_In).
  destruct (@largest_spec t b) as (Hin & Hnum & Hmax).
  { apply Hall. now left. }
  { intros e He. apply Hall. now right. }
  split; [now apply Hall in Hin|]. split; [exact Hnum|].
  intros e He. destruct (PyFloat.number (snd e)) eqn:En.
  - apply Hmax. apply Hall. auto.
  - now apply lt_nan_r.
Qed.

Lemma first_largest_None s :
  Pandas.first_largest s = None -> forall e, In e s -> PyFloat.number (snd e) = false.
Proof.
  unfold Pandas.first_largest, Pandas.numbers.
  destruct (filter (fun e => PyFloat.number (snd e)) s) as [|b t] eqn:Ef; [|discriminate].
  intros _ e He. destruct (PyFloat.number (snd e)) eqn:En; [|reflexivity].
  assert (Hin : In e (filter (fun e => PyFloat.number (snd e)) s))
    by (apply filter_In; auto).
  rewrite Ef in Hin. destruct Hin.
Qed.

(** When the maximum does not exceed [alpha], no value does. *)
Lemma max_not_above s alpha :
  PyFloat.gt (Pandas.max s) alpha = false ->
  forall e, In e s -> PyFloat.gt (snd e) alpha = false.
Proof.
  unfold Pandas.max, PyFloat.gt. intros Hmax e He.
  destruct (Pandas.first_largest s) as [r|] eqn:Er.
  - apply first_largest_Some in Er as (_ & Hr & Hle).
    destruct (PrimFloat.ltb alpha (snd e)) eqn:Elt; [|reflexivity].
    assert (He' : PyFloat.number (snd e) = true)
      by (eapply FloatFacts.lt_number_r; exact Elt).
    assert (Hlt : PyFloat.lt alpha (snd r) = true).
    { eapply FloatFacts.lt_le_trans; [exact Elt|].
      apply FloatFacts.not_lt_le; auto. }
    unfold PyFloat.lt in Hlt. congruence.
  - apply lt_nan_r. eapply first_largest_None; eauto.
Qed.

Section BackwardPvalue.

Variable ols : string -> DataFrame -> option RegressionResults.

Lemma pvalue_round_Ok response alpha verbose s w w' c :
  pvalue_round ols response alpha verbose s w = (w', Ok c) ->
  w_data w' = w_data w /\
  match c with
  | Continue s' => pvalue_removal ols (w_data w) response alpha s s'
  | Break s' => s' = s /\ pvalue_stop alpha s
  end.
Proof.
  unfold pvalue_round. fold (predictor_pvalues s). cbv zeta.
  intros (w0 & worst_feature & E0 & E)%bind_Ok.
  apply or_raise_Ok in E0 as [E0 ->].
  unfold Pandas.idxmax in E0.
  destruct (Pandas.first_largest (predictor_pvalues s))
    as [[worst_feature' worst_pval]|] eqn:Er; [|discriminate].
  injection E0 as <-.
  assert (Hmax : Pandas.max (predictor_pvalues s) = worst_pval)
    by (unfold Pandas.max; now rewrite Er).
  apply first_largest_Some in Er as Hworst.
  destruct (PyFloat.gt (Pandas.max (predictor_pvalues s)) alpha) eqn:Egt.
  - apply bind_Ok in E as (w1 & u & E1 & E).
    assert (Hw1 : w_data w1 = w_data w)
      by (eapply (@frames_Ok unit); [|exact E1]; apply frames_when, frames_print).
    apply bind_Ok in E as (w2 & remaining_vars & E2 & E).
    apply or_raise_Ok in E2 as [E2 ->].
    apply bind_Ok in E as (w3 & model & E3 & E).
    apply ols_fit_Ok in E3 as [E3 Hw3]. apply ret_Ok in E as [<- ->].
    split; [congruence|].
    exists worst_feature', worst_pval, remaining_vars, model.
    rewrite Hmax in Egt. rewrite Hw1 in E3. auto.
  - apply ret_Ok in E as [<- ->]. split; [reflexivity|]. split; [reflexivity|].
    split; [|split].
    + destruct Hworst as [Hin _]. intros Hnil. rewrite Hnil in Hin. destruct Hin.
    + now apply max_not_above.
    + now exists (worst_feature', worst_pval).
Qed.

(** The result of a call that returns, through the removals. *)
Lemma backward_selection_pvalue_chain fuel response alpha verbose w w' model selected_vars :
  backward_selection_pvalue ols fuel response alpha verbose w
    = (w', Ok (model, selected_vars)) ->
  exists remaining_vars full_model s,
    Py.remove_first response (columns (w_data w)) = Some remaining_vars /\
    ols (formula_terms response remaining_vars) (w_data w) = Some full_model /\
    clos_refl_trans_1n _ (pvalue_removal ols (w_data w) response alpha)
      (mkPv remaining_vars full_model) s /\
    pvalue_stop alpha s /\
    model = pv_model s /\ selected_vars = pv_remaining s.
Proof.
  unfold backward_selection_pvalue.
  intros (w1 & cols & E1 & E)%bind_Ok. injection E1 as <- <-.
  apply bind_Ok in E as (w2 & remaining_vars & E2 & E).
  apply or_raise_Ok in E2 as [E2 ->].
  apply bind_Ok in E as (w3 & full_model & E3 & E).
  apply ols_fit_Ok in E3 as [E3 Hw3].
  apply bind_Ok in E as (w4 & s & E4 & E).
  apply ret_Ok in E as [[= <- <-] ->].
  apply loop_chain with (d := w_data w)
         (step := pvalue_removal ols (w_data w) response alpha)
         (stop := pvalue_stop alpha) in E4
    as (Hw4 & Hchain & Hstop); [| |exact Hw3].
  2:{ intros s0 v v' c Hv Er. apply pvalue_round_Ok in Er as [Hv' Hr].
      rewrite Hv in *. auto. }
  exists remaining_vars, full_model, s. auto 10.
Qed.

Lemma ends_pvalue_round response alpha verbose s :
  ends (pvalue_round ols response alpha verbose s).
Proof. unfold pvalue_round. ends_tac. Qed.

Lemma pvalue_round_shrinks response alpha verbose s w w' s' :
  pvalue_round ols response alpha verbose s w = (w', Ok (Continue s')) ->
  List.length (pv_remaining s') < List.length (pv_remaining s).
Proof.
  intros H. apply pvalue_round_Ok in H as [_ H].
  destruct H as (c & x & r & m & _ & _ & Hr & _ & ->). simpl.
  rewrite (remove_first_length _ _ Hr). lia.
Qed.

(** The loop of [backward_selection_pvalue] needs at most one round per
    column. *)
Lemma backward_selection_pvalue_ends fuel response alpha verbose w :
  List.length (columns (w_data w)) <= fuel ->
  snd (backward_selection_pvalue ols fuel response alpha verbose w) <> OutOfFuel.
Proof.
  intros Hfuel. unfold backward_selection_pvalue, bind at 1, data_columns.
  unfold bind at 1.
  destruct (Py.remove_first response (columns (w_data w)))
    as [remaining_vars|] eqn:Er; simpl; [|discriminate].
  unfold bind at 1.
  destruct (ols_fit ols (formula_terms response remaining_vars) w)
    as [w1 [full_model|e|]] eqn:Efit; try discriminate.
  2:{ pose proof (ends_ols_fit ols (formula_terms response remaining_vars) w) as He.
      now rewrite Efit in He. }
  unfold bind at 1.
  pose proof (@loop_ends _ (pvalue_round ols response alpha verbose)
                (fun s => List.length (pv_remaining s))
                (ends_pvalue_round response alpha verbose)
                (fun s v v' s' Hb => pvalue_round_shrinks _ _ _ _ _ Hb)
                fuel (mkPv remaining_vars full_model) w1) as Hl.
  simpl in Hl. rewrite (remove_first_length _ _ Er) in Hfuel. specialize (Hl Hfuel).
  destruct (loop fuel _ _ w1) as [w2 [s|e|]]; try discriminate.
  exfalso. now apply Hl.
Qed.

(** C7: within a loop budget of one round per column a call of
    [backward_selection_pvalue] returns or raises.  In a call that
    returns, every round before the last removed exactly one variable, the
    one holding the maximum p-value of the current model (the intercept
    and the NaN entries apart), because that maximum exceeded [alpha], and
    refitted; the last round found a maximum and no p-value above
    [alpha].  So no predictor of the model returned has a p-value above
    [alpha]: each is less than or equal to it, unless it is NaN (or
    [alpha] is). *)
Theorem backward_pvalue_all_significant response alpha verbose w :
  (forall fuel,
     List.length (columns (w_data w)) <= fuel ->
     snd (backward_selection_pvalue ols fuel response alpha verbose w) <> OutOfFuel) /\
  (forall fuel w' model selected_vars,
     backward_selection_pvalue ols fuel response alpha verbose w
       = (w', Ok (model, selected_vars)) ->
     exists remaining_vars full_model s,
       Py.remove_first response (columns (w_data w)) = Some remaining_vars /\
       ols (formula_terms response remaining_vars) (w_data w) = Some full_model /\
       clos_refl_trans_1n _ (pvalue_removal ols (w_data w) response alpha)
         (mkPv remaining_vars full_model) s /\
       pvalue_stop alpha s /\
       model = pv_model s /\ selected_vars = pv_remaining s /\
       forall var p, In (var, p) (pvalues model) -> var <> "Intercept"%string ->
         PyFloat.gt p alpha = false /\
         (PyFloat.number p = true -> PyFloat.number alpha = true ->
          PyFloat.le p alpha = true)).
Proof.
  split; [intros fuel; apply backward_selection_pvalue_ends|].
  intros fuel w' model selected_vars H.
  apply backward_selection_pvalue_chain in H
    as (remaining_vars & full_model & s & Hr & Hfull & Hchain & Hstop & -> & ->).
  exists remaining_vars, full_model, s.
  do 6 (split; [solve [auto]|]).
  intros var p Hin Hvar.
  assert (Hgt : PyFloat.gt p alpha = false).
  { destruct Hstop as (_ & Hall & _). apply (Hall (var, p)).
    unfold predictor_pvalues, Pandas.drop. apply filter_In. split; [exact Hin|].
    simpl. apply negb_true_iff. now apply String.eqb_neq. }
  split; [exact Hgt|]. intros Hp Ha. now apply FloatFacts.not_lt_le.
Qed.

End BackwardPvalue.

(** C7 as stated fails when a fit gives NaN for a p-value, as it does for
    a column of zeros: [idxmax] and [max] skip NaN, so the column is never
    the one removed.  Here the maximum, 0.03, does not exceed 0.05 and the
    full model is returned, with [z] in it, whose p-value is not less than
    or equal to 0.05. *)
Lemma backward_pvalue_keeps_nan_predictor :
  snd (backward_selection_pvalue (Example.table_ols Example.zero_column_fits) 4 "y"
         0.05 true Example.zero_column_world)
    = Ok (Example.zero_column_full, ["a"; "z"; "c"]%string) /\
  exists p,
    Pandas.get (pvalues Example.zero_column_full) "z" = Some p /\
    PyFloat.number p = false /\
    PyFloat.le p 0.05 = false.
Proof.
  split; [vm_compute; reflexivity|].
  exists nan. repeat split; vm_compute; reflexivity.
Qed.

(* ================================================================= *)
(** * Stepwise selection: the flags and the priority between them *)

Section Stepwise.

Variable ols : string -> DataFrame -> option RegressionResults.

Lemma inclusion_candidate_Ok response selected var w w' c :
  inclusion_candidate ols response selected var w = (w', Ok c) ->
  w_data w' = w_data w /\ inclusion_fit ols (w_data w) response selected var c.
Proof.
  unfold inclusion_candidate. intros (w1 & model & E1 & E)%bind_Ok.
  apply bind_Ok in E as (w2 & pval & E2 & E).
  apply or_raise_Ok in E2 as [E2 ->]. apply ret_Ok in E as [<- ->].
  apply ols_fit_Ok in E1 as [E1 Hw]. split; [exact Hw|].
  exists model, pval. auto.
Qed.

Lemma removal_formula response vars :
  (if List.length vars =? 0 then formula_intercept response
   else formula_terms response vars) = formula_of response vars.
Proof. now destruct vars. Qed.

Lemma removal_candidate_Ok response selected var w w' c :
  removal_candidate ols response selected var w = (w', Ok c) ->
  w_data w' = w_data w /\
  removal_fit ols (w_data w) (formula_of response) selected var c.
Proof.
  unfold removal_candidate. cbv zeta. rewrite removal_formula.
  intros (w1 & model & E1 & E)%bind_Ok.
  apply ret_Ok in E as [<- ->]. apply ols_fit_Ok in E1 as [E1 Hw].
  split; [exact Hw|]. exists model. auto.
Qed.

Lemma best_inclusion_Ok response s w w' inc :
  best_inclusion ols response s w = (w', Ok inc) ->
  w_data w' = w_data w /\ min_aic_inclusion ols (w_data w) response s inc.
Proof.
  unfold best_inclusion. intros (w1 & candidates & E1 & E)%bind_Ok.
  apply ret_Ok in E as [<- ->].
  apply for_each_Ok
    with (R := inclusion_fit ols (w_data w) response (sw_selected s))
         (d := w_data w) in E1 as [Hw1 Hfits]; [| |reflexivity].
  2:{ intros x v v' y Hv Ex. apply inclusion_candidate_Ok in Ex as [Hv' Hx].
      rewrite Hv in *. auto. }
  split; [exact Hw1|]. exists candidates. split; [exact Hfits|].
  destruct (hd_error (Py.sort_by inclusion_key candidates)) as [best|] eqn:Eh.
  - now apply least_by_sorted.
  - destruct (Py.sort_by inclusion_key candidates) eqn:Es; [|discriminate].
    apply sort_by_nil in Es. subst candidates. now inversion Hfits.
Qed.

Lemma best_removal_Ok response s w w' rem :
  best_removal ols response s w = (w', Ok rem) ->
  w_data w' = w_data w /\ min_aic_removal ols (w_data w) response s rem.
Proof.
  unfold best_removal. destruct (Py.truthy (sw_selected s)) eqn:Et.
  2:{ intros [<- ->]%ret_Ok. split; [reflexivity|]. simpl.
      now destruct (sw_selected s). }
  - intros (w1 & candidates & E1 & E)%bind_Ok.
    apply for_each_Ok
      with (R := removal_fit ols (w_data w) (formula_of response) (sw_selected s))
           (d := w_data w) in E1 as [Hw1 Hfits]; [| |reflexivity].
    2:{ intros x v v' y Hv Ex. apply removal_candidate_Ok in Ex as [Hv' Hx].
        rewrite Hv in *. auto. }
    destruct (Py.sort_by aic_key candidates) as [|best rest] eqn:Es; [discriminate|].
    apply ret_Ok in E as [<- ->]. split; [exact Hw1|].
    exists candidates. split; [exact Hfits|]. apply least_by_sorted. now rewrite Es.
Qed.

(** The variable of the best inclusion is a remaining one, and the variable
    of the best removal a selected one. *)
Lemma min_aic_inclusion_In d response s var a p m :
  min_aic_inclusion ols d response s (Some (var, a, p, m)) ->
  In var (sw_remaining s) /\
  ols (formula_terms response (sw_selected s ++ [var])) d = Some m /\ a = aic m.
Proof.
  intros (candidates & Hfits & Hin & _).
  eapply Forall2_In_r in Hin as (x & Hx & Hfit); [|exact Hfits].
  destruct Hfit as (model & pval & Hols & _ & [= -> -> _ ->]). auto.
Qed.

Lemma min_aic_removal_In d response s var a m :
  min_aic_removal ols d response s (Some (var, a, m)) ->
  In var (sw_selected s) /\
  ols (formula_of response (Py.without var (sw_selected s))) d = Some m /\ a = aic m.
Proof.
  intros (candidates & Hfits & Hin & _).
  eapply Forall2_In_r in Hin as (x & Hx & Hfit); [|exact Hfits].
  destruct Hfit as (model & Hols & [= -> -> ->]). auto.
Qed.

Lemma do_inclusion_true threshold_in s inc :
  do_inclusion threshold_in s inc = true <->
  exists var aic_test pval_test model_test,
    inc = Some (var, aic_test, pval_test, model_test) /\
    PyFloat.lt aic_test (sw_best_aic s) = true /\
    PyFloat.lt pval_test threshold_in = true.
Proof.
  unfold do_inclusion. rewrite andb_true_iff. split.
  - destruct inc as [[[[var a] p] m]|]; simpl.
    + intros [H1 H2]. exists var, a, p, m. auto.
    + rewrite FloatFacts.inf_not_lt. intros [H _]. discriminate.
  - intros (var & a & p & m & -> & H1 & H2). simpl. auto.
Qed.


Lemma do_removal_Some threshold_out s rem :
  do_removal threshold_out s rem = true -> exists best, rem = Some best.
Proof.
  unfold do_removal. destruct rem as [best|]; [eauto|]. simpl.
  rewrite FloatFacts.inf_not_lt. discriminate.
Qed.


Lemma stepwise_round_move response threshold_in threshold_out verbose s w w1 w2 inc rem :
  best_inclusion ols response s w = (w1, Ok inc) ->
  best_removal ols response s w1 = (w2, Ok rem) ->
  stepwise_round ols response threshold_in threshold_out verbose s w
  = stepwise_move threshold_in threshold_out verbose s inc rem w2.
Proof. intros H1 H2. unfold stepwise_round, bind. now rewrite H1, H2. Qed.

Lemma settle_both best_aic aic_inclusion aic_removal :
  settle best_aic aic_inclusion aic_removal (true, true) =
  if PyFloat.gt (best_aic - aic_removal) (best_aic - aic_inclusion)
  then (false, true) else (true, false).
Proof. reflexivity. Qed.

(** C5: when both flags are set in a round, one move is made.  It is the
    removal when the drop of AIC it brings, [best_aic - best_aic_removal],
    is strictly larger than the inclusion's, [best_aic -
    best_aic_inclusion]; otherwise, and so when the two drops are equal,
    it is the inclusion.  The state after the round shows the one move
    only. *)
Theorem stepwise_priority response threshold_in threshold_out verbose s w w1 w2 inc rem :
  best_inclusion ols response s w = (w1, Ok inc) ->
  best_removal ols response s w1 = (w2, Ok rem) ->
  do_inclusion threshold_in s inc = true ->
  do_removal threshold_out s rem = true ->
  exists var_in aic_in pval_in model_in var_out aic_out model_out,
    inc = Some (var_in, aic_in, pval_in, model_in) /\
    rem = Some (var_out, aic_out, model_out) /\
    let drop_inclusion := (sw_best_aic s - aic_in)%float in
    let drop_removal := (sw_best_aic s - aic_out)%float in
    let after :=
      snd (stepwise_round ols response threshold_in threshold_out verbose s w) in
    (if PyFloat.gt drop_removal drop_inclusion
     then exists selected_vars,
            Py.remove_first var_out (sw_selected s) = Some selected_vars /\
            after = Ok (mkSw selected_vars (sw_remaining s ++ [var_out])
                          model_out aic_out true)
     else exists remaining_vars,
            Py.remove_first var_in (sw_remaining s) = Some remaining_vars /\
            after = Ok (mkSw (sw_selected s ++ [var_in]) remaining_vars
                          model_in aic_in true)) /\
    (drop_removal = drop_inclusion \/ PrimFloat.eqb drop_removal drop_inclusion = true ->
     PyFloat.gt drop_removal drop_inclusion = false).
Proof.
  intros Hinc Hrem Hdi Hdr.
  rewrite (@stepwise_round_move response threshold_in threshold_out verbose s w w1 w2 inc rem Hinc Hrem).
  apply best_inclusion_Ok in Hinc as [Hw1 Hinc].
  apply best_removal_Ok in Hrem as [Hw2 Hrem]. rewrite Hw1 in Hrem.
  pose proof Hdi as Hdi'. apply do_inclusion_true in Hdi'
    as (var_in & aic_in & pval_in & model_in & -> & _).
  pose proof Hdr as Hdr'. apply do_removal_Some in Hdr' as [[[var_out aic_out] model_out] ->].
  apply min_aic_inclusion_In in Hinc as [Hin_in _].
  apply min_aic_removal_In in Hrem as [Hin_out _].
  destruct (remove_first_In _ _ Hin_in) as [remaining_vars Er].
  destruct (remove_first_In _ _ Hin_out) as [selected_vars Es].
  exists var_in, aic_in, pval_in, model_in, var_out, aic_out, model_out.
  split; [reflexivity|]. split; [reflexivity|]. cbv zeta. split.
  - unfold stepwise_move. rewrite Hdi, Hdr.
    change (best_aic_inclusion (Some (var_in, aic_in, pval_in, model_in))) with aic_in.
    change (best_aic_removal (Some (var_out, aic_out, model_out))) with aic_out.
    rewrite settle_both.
    destruct (PyFloat.gt (sw_best_aic s - aic_out) (sw_best_aic s - aic_in)); simpl.
    + exists selected_vars. split; [exact Es|]. unfold bind. rewrite Es. simpl.
      now destruct verbose.
    + exists remaining_vars. split; [exact Er|]. unfold bind. rewrite Er. simpl.
      now destruct verbose.
  - intros [->|Heq]; [apply FloatFacts.lt_irrefl | now apply FloatFacts.eqb_not_gt].
Qed.

End Stepwise.

(* ================================================================= *)
(** * Stepwise selection: termination *)

Lemma lists_upto_complete names n l :
  List.length l <= n -> (forall x, In x l -> In x names) -> In l (lists_upto n names).
Proof.
  revert l. induction n as [|n IH]; intros [|x l] Hlen Hin; simpl in *;
    try lia; auto.
  right. apply in_flat_map. exists x. split; [now apply Hin; left|].
  apply in_map, IH; [lia|]. intros y Hy. apply Hin. now right.
Qed.

Lemma below_monotone V x y : PyFloat.lt y x = true -> below y V <= below x V.
Proof.
  unfold below. intros Hlt. induction V as [|u V IH]; simpl; [lia|].
  destruct (PyFloat.lt u y) eqn:Euy.
  - rewrite (FloatFacts.lt_trans Euy Hlt). simpl. lia.
  - destruct (PyFloat.lt u x); simpl; lia.
Qed.

Lemma below_decreases V x y :
  In y V -> PyFloat.lt y x = true -> below y V < below x V.
Proof.
  intros Hin Hlt. induction V as [|v V IH]; [destruct Hin|].
  pose proof (below_monotone V Hlt) as Hle.
  unfold below in *. simpl.
  destruct (PyFloat.lt v y) eqn:Evy.
  - rewrite (FloatFacts.lt_trans Evy Hlt). simpl.
    destruct Hin as [->|Hin]; [now rewrite FloatFacts.lt_irrefl in Evy|].
    apply -> Nat.succ_lt_mono. now apply IH.
  - destruct Hin as [->|Hin].
    + rewrite Hlt. simpl. lia.
    + specialize (IH Hin). destruct (PyFloat.lt v x); simpl; lia.
Qed.

Section StepwiseTermination.

Variable ols : string -> DataFrame -> option RegressionResults.
Variable set_iter : list string -> list string.

Lemma ends_stepwise_round response tin tout verbose s :
  ends (stepwise_round ols response tin tout verbose s).
Proof.
  unfold stepwise_round, best_inclusion, best_removal, inclusion_candidate,
    removal_candidate, stepwise_move.
  ends_tac.
Qed.

Lemma fitted_aics_terms d response names vars model :
  List.length vars <= List.length names -> (forall x, In x vars -> In x names) ->
  ols (formula_terms response vars) d = Some model ->
  In (aic model) (fitted_aics ols d response names).
Proof.
  intros Hlen Hin Hfit. unfold fitted_aics. apply in_flat_map. exists vars.
  split; [now apply lists_upto_complete|]. rewrite Hfit. simpl. now left.
Qed.

Lemma fitted_aics_formula_of d response names vars model :
  List.length vars <= List.length names -> (forall x, In x vars -> In x names) ->
  ols (formula_of response vars) d = Some model ->
  In (aic model) (fitted_aics ols d response names).
Proof.
  intros Hlen Hin Hfit. unfold fitted_aics. apply in_flat_map. exists vars.
  split; [now apply lists_upto_complete|]. rewrite Hfit.
  apply in_or_app. right. now left.
Qed.

Lemma settle_fst b ai ar i r : fst (settle b ai ar (i, r)) = true -> i = true.
Proof.
  unfold settle. destruct i, r; simpl; auto;
    destruct (PyFloat.gt (b - ar) (b - ai)); simpl; auto.
Qed.

Lemma settle_snd b ai ar i r : snd (settle b ai ar (i, r)) = true -> r = true.
Proof.
  unfold settle. destruct i, r; simpl; auto;
    destruct (PyFloat.gt (b - ar) (b - ai)); simpl; auto.
Qed.

(** What a round that returns did: an inclusion, a removal, or nothing. *)
Lemma stepwise_move_Ok tin tout verbose s inc rem w w' s' :
  stepwise_move tin tout verbose s inc rem w = (w', Ok s') ->
  (exists var a p m remaining_vars,
     inc = Some (var, a, p, m) /\ do_inclusion tin s inc = true /\
     Py.remove_first var (sw_remaining s) = Some remaining_vars /\
     s' = mkSw (sw_selected s ++ [var]) remaining_vars m a true)
  \/ (exists var a m selected_vars,
     rem = Some (var, a, m) /\ do_removal tout s rem = true /\
     Py.remove_first var (sw_selected s) = Some selected_vars /\
     s' = mkSw selected_vars (sw_remaining s ++ [var]) m a true)
  \/ s' = mkSw (sw_selected s) (sw_remaining s) (sw_best_model s) (sw_best_aic s) false.
Proof.
  unfold stepwise_move. cbv zeta.
  destruct (fst (settle _ _ _ _)) eqn:Ef.
  - apply settle_fst in Ef. destruct inc as [[[[var a] p] m]|]; [|discriminate].
    intros (w1 & remaining_vars & E1 & E)%bind_Ok.
    apply or_raise_Ok in E1 as [E1 ->].
    apply bind_Ok in E as (w2 & u & _ & E). apply ret_Ok in E as [<- _].
    left. exists var, a, p, m, remaining_vars. auto.
  - destruct (snd (settle _ _ _ _)) eqn:Es.
    + apply settle_snd in Es. destruct rem as [[[var a] m]|]; [|discriminate].
      intros (w1 & selected_vars & E1 & E)%bind_Ok.
      apply or_raise_Ok in E1 as [E1 ->].
      apply bind_Ok in E as (w2 & u & _ & E). apply ret_Ok in E as [<- _].
      right. left. exists var, a, m, selected_vars. auto.
    + intros (w1 & u & _ & E)%bind_Ok. apply ret_Ok in E as [<- _]. auto.
Qed.

Lemma stepwise_round_Ok response tin tout verbose s w w' s' :
  stepwise_round ols response tin tout verbose s w = (w', Ok s') ->
  w_data w' = w_data w /\
  exists inc rem,
    min_aic_inclusion ols (w_data w) response s inc /\
    min_aic_removal ols (w_data w) response s rem /\
    ((exists var a p m remaining_vars,
       inc = Some (var, a, p, m) /\ do_inclusion tin s inc = true /\
       Py.remove_first var (sw_remaining s) = Some remaining_vars /\
       s' = mkSw (sw_selected s ++ [var]) remaining_vars m a true)
    \/ (exists var a m selected_vars,
       rem = Some (var, a, m) /\ do_removal tout s rem = true /\
       Py.remove_first var (sw_selected s) = Some selected_vars /\
       s' = mkSw selected_vars (sw_remaining s ++ [var]) m a true)
    \/ s' = mkSw (sw_selected s) (sw_remaining s) (sw_best_model s) (sw_best_aic s) false).
Proof.
  intros H. split.
  - eapply frames_Ok; [apply frames_stepwise_round | exact H].
  - unfold stepwise_round in H.
    apply bind_Ok in H as (w1 & inc & E1 & H).
    apply bind_Ok in H as (w2 & rem & E2 & H).
    apply best_inclusion_Ok in E1 as [Hw1 Hinc].
    apply best_removal_Ok in E2 as [Hw2 Hrem]. rewrite Hw1 in Hrem.
    exists inc, rem. split; [exact Hinc|]. split; [exact Hrem|].
    eapply stepwise_move_Ok; eauto.
Qed.

(** Every move strictly lowers [best_aic]. *)
Lemma stepwise_round_decreases response tin tout verbose s w w' s' :
  stepwise_round ols response tin tout verbose s w = (w', Ok s') ->
  sw_improved s' = true ->
  PyFloat.lt (sw_best_aic s') (sw_best_aic s) = true.
Proof.
  intros H Himp. apply stepwise_round_Ok in H as (_ & inc & rem & _ & _ & Hmove).
  destruct Hmove as [(var & a & p & m & r & -> & Hdo & _ & ->)
                    |[(var & a & m & r & -> & Hdo & _ & ->)| ->]]; simpl in *.
  - apply do_inclusion_true in Hdo as (? & ? & ? & ? & [= <- <- <- <-] & Hlt & _).
    exact Hlt.
  - unfold do_removal in Hdo. apply andb_true_iff in Hdo as [Hlt _]. exact Hlt.
  - discriminate.
Qed.

(** A round keeps the names in play and, when it moves, takes the search
    to a strictly lower one of the finitely many fitted AIC values. *)
Lemma stepwise_round_progress d response tin tout verbose names s w w' s' :
  w_data w = d ->
  Permutation (sw_selected s ++ sw_remaining s) names ->
  sw_improved s = true ->
  stepwise_round ols response tin tout verbose s w = (w', Ok s') ->
  w_data w' = d /\
  Permutation (sw_selected s' ++ sw_remaining s') names /\
  stepwise_measure (fitted_aics ols d response names) s'
  < stepwise_measure (fitted_aics ols d response names) s.
Proof.
  intros Hw Hperm Himp H.
  apply stepwise_round_Ok in H as (Hw' & inc & rem & Hinc & Hrem & Hmove).
  rewrite Hw in *. split; [exact Hw'|].
  assert (Hnames : forall x, In x (sw_selected s ++ sw_remaining s) -> In x names)
    by (intros x; apply Permutation_in, Hperm).
  assert (Hlen : List.length (sw_selected s) + List.length (sw_remaining s)
                 = List.length names)
    by (rewrite <- (Permutation_length Hperm); now rewrite length_app).
  unfold stepwise_measure at 2. rewrite Himp.
  destruct Hmove as [(var & a & p & m & r & -> & Hdo & Hr & ->)
                    |[(var & a & m & r & -> & Hdo & Hr & ->)| ->]];
    unfold stepwise_measure; simpl.
  - apply do_inclusion_true in Hdo as (? & ? & ? & ? & [= <- <- <- <-] & Hlt & _).
    apply min_aic_inclusion_In in Hinc as (Hin & Hfit & ->).
    pose proof (remove_first_perm _ _ Hr) as Hp. split.
    + rewrite <- Hperm, Hp, <- app_assoc. simpl. reflexivity.
    + apply -> Nat.succ_lt_mono. apply below_decreases; [|exact Hlt].
      eapply fitted_aics_terms; [| |exact Hfit].
      * rewrite length_app. simpl. destruct (sw_remaining s); [destruct Hin|].
        simpl in Hlen. lia.
      * intros x [Hx|[<-|[]]]%in_app_or; apply Hnames, in_or_app; auto.
  - unfold do_removal in Hdo. apply andb_true_iff in Hdo as [Hlt _]. simpl in Hlt.
    apply min_aic_removal_In in Hrem as (Hin & Hfit & ->).
    pose proof (remove_first_perm _ _ Hr) as Hp. split.
    + rewrite <- Hperm, Hp, app_assoc. simpl. symmetry.
      apply Permutation_cons_append.
    + apply -> Nat.succ_lt_mono. apply below_decreases; [|exact Hlt].
      eapply fitted_aics_formula_of; [| |exact Hfit].
      * pose proof (without_length var (sw_selected s)). lia.
      * intros x Hx%without_In. apply Hnames, in_or_app. auto.
  - split; [exact Hperm | lia].
Qed.

Lemma stepwise_loop_ends d response tin tout verbose names : forall n s w,
  w_data w = d ->
  Permutation (sw_selected s ++ sw_remaining s) names ->
  stepwise_measure (fitted_aics ols d response names) s <= n ->
  snd (while n sw_improved (stepwise_round ols response tin tout verbose) s w)
  <> OutOfFuel.
Proof.
  induction n as [|n IH]; intros s w Hw Hperm Hm; simpl;
    destruct (sw_improved s) eqn:Himp; try discriminate.
  - unfold stepwise_measure in Hm. rewrite Himp in Hm. lia.
  - unfold bind.
    destruct (stepwise_round ols response tin tout verbose s w) as [w1 [s1|e|]] eqn:Er.
    + destruct (@stepwise_round_progress _ _ _ _ _ _ _ _ _ _ Hw Hperm Himp Er) as (Hw1 & Hp1 & Hlt).
      apply IH; auto. lia.
    + discriminate.
    + pose proof (ends_stepwise_round response tin tout verbose s w) as He.
      now rewrite Er in He.
Qed.

(** C9: every round of [stepwise_selection_both] that makes a move
    strictly lowers [best_aic], and the search ends: with a loop budget
    above the number of AIC values that fits over the names in play can
    have, a call returns or raises, whatever the fitting capability
    answers. *)
Theorem stepwise_terminates response initial_list threshold_in threshold_out verbose w :
  (forall s v v' s',
     stepwise_round ols response threshold_in threshold_out verbose s v = (v', Ok s') ->
     sw_improved s' = true ->
     PyFloat.lt (sw_best_aic s') (sw_best_aic s) = true) /\
  exists fuel, forall n, fuel <= n ->
    snd (stepwise_selection_both ols set_iter n response initial_list
           threshold_in threshold_out verbose w) <> OutOfFuel.
Proof.
  split; [intros s v v' s'; apply stepwise_round_decreases|].
  set (selected_vars := match initial_list with None => [] | Some l => l end).
  set (remaining_vars :=
         set_difference set_iter
           (set_difference set_iter (set_iter (columns (w_data w))) (set_iter selected_vars))
           [response]).
  set (names := selected_vars ++ remaining_vars).
  exists (S (List.length (fitted_aics ols (w_data w) response names))).
  intros n Hn. unfold stepwise_selection_both.
  fold selected_vars. cbv zeta. unfold bind at 1. unfold data_columns at 1.
  fold remaining_vars. unfold bind at 1.
  destruct (ols_fit ols _ w) as [w1 [best_model|e|]] eqn:Efit; try discriminate.
  2:{ pose proof (ends_ols_fit ols
        (if Py.truthy selected_vars then formula_terms response selected_vars
         else formula_intercept response) w) as He.
      now rewrite Efit in He. }
  apply ols_fit_Ok in Efit as [_ Hw1].
  unfold bind.
  pose proof (@stepwise_loop_ends (w_data w) response threshold_in threshold_out
                verbose names n
                (mkSw selected_vars remaining_vars best_model (aic best_model) true)
                w1 Hw1 (Permutation_refl _)) as Hends.
  destruct (while n sw_improved _ _ w1) as [w2 [s|e|]]; try discriminate.
  exfalso. apply Hends; [|reflexivity]. unfold stepwise_measure, below. simpl.
  pose proof (filter_length_le (fun v => PyFloat.lt v (aic best_model))
                (fitted_aics ols (w_data w) response names)).
  lia.
Qed.

End StepwiseTermination.

(* ================================================================= *)
(** * The list every procedure returns *)

Lemma remove_first_NoDup x l r :
  NoDup l -> Py.remove_first x l = Some r ->
  NoDup r /\ ~ In x r /\ forall y, In y r -> In y l.
Proof.
  intros Hl Hr. pose proof (remove_first_perm _ _ Hr) as Hp.
  pose proof (Permutation_NoDup Hp Hl) as Hn. inversion Hn; subst.
  repeat split; auto. intros y Hy.
  apply (Permutation_in y (Permutation_sym Hp)). now right.
Qed.



Section Results.

Variable ols : string -> DataFrame -> option RegressionResults.
Variable set_iter : list string -> list string.

Lemma forward_step_names d response sl names s s' :
  Permutation (fw_selected s ++ fw_remaining s) names ->
  forward_step ols d response sl s s' ->
  Permutation (fw_selected s' ++ fw_remaining s') names.
Proof.
  intros Hp (_ & _ & pvals & c & p & _ & _ & _ & Hmove).
  destruct (PyFloat.lt p sl).
  - destruct Hmove as (r & Hr & ->). simpl.
    rewrite <- Hp, (remove_first_perm _ _ Hr), <- app_assoc. reflexivity.
  - subst s'. exact Hp.
Qed.







Lemma set_difference_spec a b :
  python_set set_iter ->
  NoDup (set_difference set_iter a b) /\
  forall x, In x (set_difference set_iter a b) <-> In x a /\ ~ In x b.
Proof.
  intros Hset. unfold set_difference.
  destruct (Hset (filter (fun x => negb (Py.mem x b)) a)) as [Hn Hin].
  split; [exact Hn|]. intros x. rewrite Hin, filter_In, negb_true_iff.
  split; intros [H1 H2]; (split; [exact H1|]).
  - intros Hb. apply mem_In in Hb. congruence.
  - destruct (Py.mem x b) eqn:E; [|reflexivity]. apply mem_In in E. contradiction.
Qed.


End Results.


(* ================================================================= *)
(** * The order of the list returned *)

Section Order.

Variable ols : string -> DataFrame -> option RegressionResults.
Variable set_iter : list string -> list string.


End Order.


(* ================================================================= *)
(** * The data table after a call *)

(** C10: whatever the loop budget and however the call ends (a result, an
    exception of the fit or of a lookup), the data table after a call of
    any of the four procedures is the table before it; only the trace of
    fits and printed lines grows. *)
Theorem selection_leaves_data ols set_iter fuel response w :
  (forall sl,
     w_data (fst (forward_selection ols set_iter fuel response sl w)) = w_data w) /\
  w_data (fst (backward_selection_aic ols fuel response w)) = w_data w /\
  (forall initial_list tin tout verbose,
     w_data (fst (stepwise_selection_both ols set_iter fuel response initial_list
                    tin tout verbose w)) = w_data w) /\
  (forall alpha verbose,
     w_data (fst (backward_selection_pvalue ols fuel response alpha verbose w))
     = w_data w).
Proof.
  repeat apply conj; intros.
  - apply frames_forward_selection.
  - apply frames_backward_selection_aic.
  - apply frames_stepwise_selection_both.
  - apply frames_backward_selection_pvalue.
Qed.

(* ================================================================= *)
(** * Rounds that leave no predictor *)

(** The run of [backward_selection_aic] on a table with the one predictor
    [x], for any fitting capability. *)
Lemma backward_selection_aic_single ols fuel :
  backward_selection_aic ols (2 + fuel) "y" (mkWorld Example.single []) =
  match ols "y ~ x"%string Example.single with
  | None => (mkWorld Example.single [Fit "y ~ x"], Raise FitError)
  | Some full =>
      match ols "y ~ "%string Example.single with
      | None => (mkWorld Example.single [Fit "y ~ x"; Fit "y ~ "], Raise FitError)
      | Some reduced =>
          if PyFloat.lt (aic reduced) (aic full)
          then (mkWorld Example.single [Fit "y ~ x"; Fit "y ~ "], Raise IndexError)
          else (mkWorld Example.single [Fit "y ~ x"; Fit "y ~ "], Ok (full, ["x"%string]))
      end
  end.
Proof.
  cbv -[PrimFloat.ltb].
  destruct (ols _ _) as [full|]; [|reflexivity].
  destruct (ols _ _) as [reduced|]; [|reflexivity].
  destruct (PrimFloat.ltb _ _); reflexivity.
Qed.

(** C1, on the code: with one predictor [x], [backward_selection_aic]
    never fits the intercept-only formula [y ~ 1].  The round that tries
    the removal of [x] asks for the fit of [y ~ ], with nothing after the
    tilde; when that fit is refused the call raises, and when it is
    accepted with a lower AIC the removal is committed and the next round
    raises [IndexError] on its empty list of candidates.  With the same
    table, [backward_selection_pvalue] does fit [y ~ 1] once [x] is
    removed, and then raises [ValueError]: the next round asks for the
    label of the maximum of an empty list of p-values. *)
Theorem backward_without_predictors :
  (forall ols fuel,
     let d := Example.single in
     let out := backward_selection_aic ols (2 + fuel) "y" (mkWorld d []) in
     ~ In (Fit "y ~ 1") (w_trace (fst out)) /\
     (forall model vars, snd out = Ok (model, vars) -> vars = ["x"]%string) /\
     (forall full,
        ols "y ~ x"%string d = Some full -> ols "y ~ "%string d = None ->
        out = (mkWorld d [Fit "y ~ x"; Fit "y ~ "], Raise FitError)) /\
     (forall full reduced,
        ols "y ~ x"%string d = Some full -> ols "y ~ "%string d = Some reduced ->
        PyFloat.lt (aic reduced) (aic full) = true ->
        out = (mkWorld d [Fit "y ~ x"; Fit "y ~ "], Raise IndexError))) /\
  (forall fuel verbose,
     snd (backward_selection_pvalue (Example.table_ols Example.single_fits)
            (2 + fuel) "y" 0.05 verbose (mkWorld Example.single []))
     = Raise ValueError /\
     In (Fit "y ~ 1")
       (w_trace (fst (backward_selection_pvalue (Example.table_ols Example.single_fits)
                        (2 + fuel) "y" 0.05 verbose (mkWorld Example.single []))))).
Proof.
  split.
  - intros ols fuel d out. subst out d. rewrite backward_selection_aic_single.
    destruct (ols "y ~ x"%string Example.single) as [full|];
      [destruct (ols "y ~ "%string Example.single) as [reduced|];
         [destruct (PyFloat.lt (aic reduced) (aic full)) eqn:Elt|]|];
      simpl; (split; [|split; [|split]]);
      try (intros [H|H]; [discriminate|]; try (destruct H as [H|H]; [discriminate|]);
           exact H);
      try (intros model vars [= _ <-]; reflexivity);
      try discriminate;
      try (intros full0 reduced0; congruence);
      try (intros full0; congruence).
  - intros fuel verbose. destruct verbose; split; vm_compute; auto.
Qed.

(* ================================================================= *)
(** * Further properties of the procedures *)

Lemma remove_first_absent x l : ~ In x l -> Py.remove_first x l = None.
Proof.
  induction l as [|y l IH]; simpl; [reflexivity|].
  intros H. destruct (String.eqb_spec y x) as [->|Hn]; [tauto|].
  rewrite IH; tauto.
Qed.

Section Edges.

Variable ols : string -> DataFrame -> option RegressionResults.
Variable set_iter : list string -> list string.

(** X1: when the response is not a column of the table, [forward_selection]
    raises [KeyError] for it and the two backward procedures raise
    [ValueError], whatever the loop budget, before any fit is asked: the
    state is left as it was. *)
Theorem response_must_be_a_column fuel response w :
  python_set set_iter ->
  ~ In response (columns (w_data w)) ->
  (forall sl,
     forward_selection ols set_iter fuel response sl w = (w, Raise (KeyError response))) /\
  backward_selection_aic ols fuel response w = (w, Raise ValueError) /\
  (forall alpha verbose,
     backward_selection_pvalue ols fuel response alpha verbose w = (w, Raise ValueError)).
Proof.
  intros Hset Hnot.
  assert (Hnot' : ~ In response (set_iter (columns (w_data w))))
    by (intros H; apply Hnot; now apply (Hset (columns (w_data w)))).
  repeat apply conj; intros.
  - unfold forward_selection, bind, data_columns.
    now rewrite (remove_first_absent _ _ Hnot').
  - unfold backward_selection_aic, bind, data_columns.
    now rewrite (remove_first_absent _ _ Hnot).
  - unfold backward_selection_pvalue, bind, data_columns.
    now rewrite (remove_first_absent _ _ Hnot).
Qed.

Lemma python_set_single x : python_set set_iter -> set_iter [x] = [x].
Proof.
  intros Hset. destruct (Hset [x]) as [Hn Hin].
  destruct (set_iter [x]) as [|a [|b l]] eqn:E.
  - exfalso. apply (Hin x). now left.
  - f_equal. destruct (proj1 (Hin a) (or_introl eq_refl)) as [H|[]]. now subst.
  - exfalso.
    assert (Ha : a = x) by (destruct (proj1 (Hin a) (or_introl eq_refl)) as [H|[]]; auto).
    assert (Hb : b = x)
      by (destruct (proj1 (Hin b) (or_intror (or_introl eq_refl))) as [H|[]]; auto).
    subst. inversion Hn; subst. apply H1. now left.
Qed.

Lemma python_set_nil : python_set set_iter -> set_iter [] = [].
Proof.
  intros Hset. destruct (Hset []) as [_ Hin].
  destruct (set_iter []) as [|a l]; [reflexivity|].
  exfalso. apply (Hin a). now left.
Qed.

(** X2: on a table whose only column is the response, [forward_selection]
    and [stepwise_selection_both] without an initial list ask for one fit,
    the intercept-only one, and return it with the empty list (or raise
    what the fit raises); the stepwise search prints that nothing improves
    when it is verbose. *)
Theorem no_predictor_is_intercept_only fuel response w :
  python_set set_iter ->
  columns (w_data w) = [response] ->
  let fitted := mkWorld (w_data w) (w_trace w ++ [Fit (formula_intercept response)]) in
  (forall sl,
     forward_selection ols set_iter fuel response sl w =
     match ols (formula_intercept response) (w_data w) with
     | Some model => (fitted, Ok (model, []))
     | None => (fitted, Raise FitError)
     end) /\
  (forall tin tout verbose,
     stepwise_selection_both ols set_iter (S fuel) response None tin tout verbose w =
     match ols (formula_intercept response) (w_data w) with
     | Some model =>
         (if verbose
          then mkWorld (w_data w)
                 ((w_trace w ++ [Fit (formula_intercept response)])
                  ++ [Printed NoFurtherImprovement])
          else fitted,
          Ok (model, []))
     | None => (fitted, Raise FitError)
     end).
Proof.
  intros Hset Hcols fitted. subst fitted. split.
  - intros sl. unfold forward_selection, bind, data_columns.
    rewrite Hcols, (python_set_single response Hset).
    assert (Hr : Py.remove_first response [response] = Some [])
      by (simpl; now rewrite String.eqb_refl).
    rewrite Hr. simpl.
    assert (Hw : forall fuel, while fuel forward_cond
                   (forward_round ols response sl) (mkFwd [] [] true) w
                 = (w, Ok (mkFwd [] [] true)))
      by (intros [|n]; reflexivity).
    rewrite Hw. simpl. unfold ols_fit.
    now destruct (ols (formula_intercept response) (w_data w)).
  - intros tin tout verbose. unfold stepwise_selection_both, bind at 1, data_columns.
    rewrite Hcols. unfold set_difference.
    rewrite (python_set_single response Hset), (python_set_nil Hset).
    assert (Hf : filter (fun x => negb (Py.mem x [response]))
                   (set_iter (filter (fun x => negb (Py.mem x [])) [response])) = []).
    { simpl. rewrite (python_set_single response Hset). simpl.
      now rewrite String.eqb_refl. }
    rewrite Hf, (python_set_nil Hset). simpl Py.truthy. cbv iota.
    unfold bind at 1. unfold ols_fit at 1.
    destruct (ols (formula_intercept response) (w_data w)) as [model|]; [|reflexivity].
    unfold bind at 1. simpl while. unfold bind at 1.
    unfold stepwise_round, best_inclusion, best_removal. simpl.
    unfold bind, ret. simpl.
    unfold stepwise_move, settle, do_inclusion, do_removal. simpl.
    rewrite !FloatFacts.inf_not_lt. simpl.
    destruct verbose; simpl; destruct fuel; reflexivity.
Qed.

(** X3: [backward_selection_aic] never returns an empty list: the round
    that stops the loop has looked at a removal.  When the fit of the
    formula with nothing after the tilde is refused, the list returned
    holds two different names at least. *)
Theorem backward_aic_keeps_predictors fuel response w w' model vars :
  backward_selection_aic ols fuel response w = (w', Ok (model, vars)) ->
  vars <> [] /\
  (ols (formula_terms response []) (w_data w) = None ->
   exists a b, In a vars /\ In b vars /\ a <> b).
Proof.
  intros H. apply backward_selection_aic_chain in H
    as (remaining_vars & full_model & s & _ & _ & _ & Hstop & _ & ->).
  destruct Hstop as (c & x & m & (vals & Hfits & Hin & _) & _).
  eapply Forall2_In_r in Hin as (var & Hvar & Hfit); [|exact Hfits].
  destruct Hfit as (model' & Hols & _).
  split; [intros E; rewrite E in Hvar; destruct Hvar|].
  intros Hrefused. exists var.
  destruct (Py.without var (ba_remaining s)) as [|b rest] eqn:Ew;
    [congruence|].
  assert (Hb : In b (Py.without var (ba_remaining s))) by (rewrite Ew; now left).
  unfold Py.without in Hb. apply filter_In in Hb as [Hb Hne].
  exists b. repeat split; auto.
  apply negb_true_iff, String.eqb_neq in Hne. congruence.
Qed.

End Edges.

(* ================================================================= *)
(** * The model returned is the fit of the list returned *)

Lemma without_absent x l : ~ In x l -> Py.without x l = l.
Proof.
  unfold Py.without. induction l as [|y l IH]; simpl; [reflexivity|].
  intros H. destruct (String.eqb_spec y x) as [->|Hn]; [tauto|].
  simpl. rewrite IH; tauto.
Qed.

(** On a list without repetition, deleting the first occurrence and
    filtering the name out give the same list. *)
Lemma without_remove_first x l r :
  NoDup l -> Py.remove_first x l = Some r -> Py.without x l = r.
Proof.
  revert r. induction l as [|y l IH]; simpl; [discriminate|].
  intros r Hn. inversion Hn; subst. unfold Py.without. simpl.
  destruct (String.eqb_spec y x) as [->|Hne].
  - intros [= <-]. simpl. now apply without_absent.
  - destruct (Py.remove_first x l) as [r'|]; [|discriminate].
    intros [= <-]. simpl. f_equal. now apply IH.
Qed.

Lemma formula_of_nonempty response vars :
  vars <> [] -> formula_of response vars = formula_terms response vars.
Proof. destruct vars; [congruence | reflexivity]. Qed.

Section Consistency.

Variable ols : string -> DataFrame -> option RegressionResults.
Variable set_iter : list string -> list string.

(** X4: the model [backward_selection_pvalue] returns is the fit of the
    response on the variables it returns: of the formula that joins them,
    or, when a removal left none, of the intercept-only formula. *)
Theorem backward_pvalue_model_fits_result fuel response alpha verbose w w' model vars :
  backward_selection_pvalue ols fuel response alpha verbose w = (w', Ok (model, vars)) ->
  ols (formula_terms response vars) (w_data w) = Some model \/
  (vars = [] /\ ols (formula_intercept response) (w_data w) = Some model).
Proof.
  intros H. apply backward_selection_pvalue_chain in H
    as (remaining_vars & full_model & s & _ & Hfull & Hchain & _ & -> & ->).
  refine (chain_invariant
            (fun s => ols (formula_terms response (pv_remaining s)) (w_data w)
                      = Some (pv_model s) \/
                      (pv_remaining s = [] /\
                       ols (formula_intercept response) (w_data w) = Some (pv_model s)))
            _ Hchain _); [|now left].
  intros a b _ (c & x & r & m & _ & _ & _ & Hfit & ->). simpl.
  destruct r; [right | left]; auto.
Qed.

(** X5: on a table whose column names are distinct, the model
    [backward_selection_aic] returns is the fit of the response on the
    variables it returns. *)
Theorem backward_aic_model_fits_result fuel response w w' model vars :
  NoDup (columns (w_data w)) ->
  backward_selection_aic ols fuel response w = (w', Ok (model, vars)) ->
  ols (formula_terms response vars) (w_data w) = Some model.
Proof.
  intros Hcols H. apply backward_selection_aic_chain in H
    as (remaining_vars & full_model & s & Hr & Hfull & Hchain & _ & -> & ->).
  destruct (@remove_first_NoDup _ _ _ Hcols Hr) as (Hn & _ & _).
  refine (proj2 (chain_invariant
                   (fun s => NoDup (ba_remaining s) /\
                             ols (formula_terms response (ba_remaining s)) (w_data w)
                             = Some (ba_model s))
                   _ Hchain _)); [|simpl; auto].
  intros a b [Han Ha] (c & x & m & r & (vals & Hfits & Hin & _) & _ & Hrem & ->).
  simpl. destruct (@remove_first_NoDup _ _ _ Han Hrem) as (Hrn & _ & _).
  split; [exact Hrn|].
  eapply Forall2_In_r in Hin as (var & _ & Hfit); [|exact Hfits].
  destruct Hfit as (model' & Hols & [= <- _ <-]).
  now rewrite (@without_remove_first _ _ _ Han Hrem) in Hols.
Qed.

(** X6: when the initial list holds no name twice, the model
    [stepwise_selection_both] returns is the fit of the response on the
    variables it returns, the intercept-only fit when there is none. *)
Theorem stepwise_model_fits_result fuel response initial_list tin tout verbose w w' model vars :
  python_set set_iter ->
  NoDup (match initial_list with None => [] | Some l => l end) ->
  stepwise_selection_both ols set_iter fuel response initial_list tin tout verbose w
    = (w', Ok (model, vars)) ->
  ols (formula_of response vars) (w_data w) = Some model.
Proof.
  intros Hset Hinit. unfold stepwise_selection_both. cbv zeta.
  set (selected_vars := match initial_list with None => [] | Some l => l end) in *.
  intros (w1 & cols & E1 & E)%bind_Ok. injection E1 as <- <-.
  apply bind_Ok in E as (w2 & best_model & E2 & E).
  apply ols_fit_Ok in E2 as [Hbase Hw2].
  apply bind_Ok in E as (w3 & s & E3 & E).
  apply ret_Ok in E as [[= <- <-] ->].
  eapply while_Ok
    with (d := w_data w)
         (I := fun s => NoDup (sw_selected s ++ sw_remaining s) /\
                        ols (formula_of response (sw_selected s)) (w_data w)
                        = Some (sw_best_model s))
    in E3 as (_ & [_ Hfit] & _); [exact Hfit| |exact Hw2|].
  - intros s0 v v' s1 Hv [Hn Hm] Hc Er.
    apply stepwise_round_Ok in Er as (Hv' & inc & rem & Hinc & Hrem & Hmove).
    rewrite Hv in *. split; [exact Hv'|].
    destruct Hmove as [(var & a & p & m & r & -> & _ & Hr & ->)
                      |[(var & a & m & r & -> & _ & Hr & ->)| ->]]; simpl.
    + apply min_aic_inclusion_In in Hinc as (_ & Hfit & _). split.
      * eapply Permutation_NoDup; [|exact Hn].
        rewrite (remove_first_perm _ _ Hr), <- app_assoc. reflexivity.
      * rewrite formula_of_nonempty; [exact Hfit|]. now destruct (sw_selected s0).
    + apply min_aic_removal_In in Hrem as (_ & Hfit & _).
      pose proof (NoDup_app_remove_r _ _ Hn) as Hsel. split.
      * eapply Permutation_NoDup; [|exact Hn].
        rewrite (remove_first_perm _ _ Hr), app_assoc. simpl.
        apply Permutation_cons_append.
      * now rewrite (@without_remove_first _ _ _ Hsel Hr) in Hfit.
    + auto.
  - simpl. split; [|exact Hbase].
    destruct (set_difference_spec
                (set_difference set_iter (set_iter (columns (w_data w)))
                   (set_iter selected_vars)) [response] Hset) as [Hn2 Hin2].
    destruct (set_difference_spec (set_iter (columns (w_data w)))
                (set_iter selected_vars) Hset) as [_ Hin1].
    destruct (Hset selected_vars) as [_ Hins].
    apply NoDup_app; auto.
    intros x Hx Hx'. apply Hin2 in Hx' as [Hx' _]. apply Hin1 in Hx' as [_ Hx'].
    apply Hx'. now apply Hins.
Qed.

End Consistency.

(* ================================================================= *)
(** * Printing changes nothing else *)

Lemma fits_of_app t1 t2 : fits_of (t1 ++ t2) = fits_of t1 ++ fits_of t2.
Proof.
  induction t1 as [|[f|l] t1 IH]; simpl; [reflexivity | now rewrite IH | exact IH].
Qed.

Lemma same_fits_refl w : same_fits w w.
Proof. now split. Qed.

Lemma agree_ret {A} (a : A) : agree (ret a) (ret a).
Proof. intros w1 w2 H. now split. Qed.

Lemma agree_raise {A} e : agree (@raise A e) (@raise A e).
Proof. intros w1 w2 H. now split. Qed.

Lemma agree_out_of_fuel {A} : agree (@out_of_fuel A) (@out_of_fuel A).
Proof. intros w1 w2 H. now split. Qed.

Lemma agree_bind {A B} (m1 m2 : M A) (f1 f2 : A -> M B) :
  agree m1 m2 -> (forall a, agree (f1 a) (f2 a)) -> agree (bind m1 f1) (bind m2 f2).
Proof.
  intros Hm Hf w1 w2 H. unfold bind. destruct (Hm w1 w2 H) as [Hw Hr].
  destruct (m1 w1) as [v1 r1], (m2 w2) as [v2 r2]. simpl in *. subst r2.
  destruct r1 as [a|e|]; [now apply Hf | now split | now split].
Qed.

Lemma agree_or_raise {A} e (o : option A) : agree (or_raise e o) (or_raise e o).
Proof. destruct o; [apply agree_ret | apply agree_raise]. Qed.

Lemma agree_for_each {A B} (f1 f2 : A -> M B) l :
  (forall x, agree (f1 x) (f2 x)) -> agree (for_each f1 l) (for_each f2 l).
Proof.
  intros Hf. induction l as [|x l IH]; simpl; [apply agree_ret|].
  apply agree_bind; [apply Hf|]. intros y.
  apply agree_bind; [apply IH|]. intros ys. apply agree_ret.
Qed.

Lemma agree_while {S} fuel cond (b1 b2 : S -> M S) s :
  (forall s, agree (b1 s) (b2 s)) ->
  agree (while fuel cond b1 s) (while fuel cond b2 s).
Proof.
  intros Hb. revert s. induction fuel as [|n IH]; intros s; simpl;
    destruct (cond s); try apply agree_ret; try apply agree_out_of_fuel.
  apply agree_bind; auto.
Qed.

Lemma agree_loop {S} fuel (b1 b2 : S -> M (ctl S)) s :
  (forall s, agree (b1 s) (b2 s)) -> agree (loop fuel b1 s) (loop fuel b2 s).
Proof.
  intros Hb. revert s. induction fuel as [|n IH]; intros s; simpl;
    [apply agree_out_of_fuel|].
  apply agree_bind; auto. intros [s'|s']; [apply IH | apply agree_ret].
Qed.

Lemma agree_data_columns : agree data_columns data_columns.
Proof.
  intros w1 w2 H. split; [exact H|]. unfold data_columns. simpl.
  destruct H as [-> _]. reflexivity.
Qed.

Lemma agree_ols_fit ols formula : agree (ols_fit ols formula) (ols_fit ols formula).
Proof.
  intros w1 w2 [Hd Hf]. unfold ols_fit. rewrite Hd.
  destruct (ols formula (w_data w2)); simpl; (split; [split|]); simpl; auto;
    now rewrite !fits_of_app, Hf.
Qed.

(** A line printed or not printed: the rest of the run cannot tell. *)
Lemma agree_when_print v1 v2 l : agree (when v1 (print l)) (when v2 (print l)).
Proof.
  intros w1 w2 [Hd Hf].
  destruct v1, v2; simpl; (split; [split|]); simpl; auto;
    rewrite ?fits_of_app; simpl; rewrite ?app_nil_r; auto.
Qed.

Ltac agree_step :=
  first
    [ match goal with H : forall _, _ |- agree _ _ => apply H end
    | apply agree_ret | apply agree_raise | apply agree_out_of_fuel
    | apply agree_or_raise | apply agree_data_columns | apply agree_ols_fit
    | apply agree_when_print | apply agree_for_each
    | apply agree_while | apply agree_loop | apply agree_bind
    | match goal with
      | |- forall _, _ => intro
      | |- agree (match ?x with _ => _ end) (match ?x with _ => _ end) => destruct x
      end ].

Ltac agree_tac := cbv zeta; repeat agree_step.

Section Verbose.

Variable ols : string -> DataFrame -> option RegressionResults.
Variable set_iter : list string -> list string.

Lemma agree_stepwise_round response tin tout v1 v2 s :
  agree (stepwise_round ols response tin tout v1 s)
        (stepwise_round ols response tin tout v2 s).
Proof.
  unfold stepwise_round, best_inclusion, best_removal, inclusion_candidate,
    removal_candidate, stepwise_move.
  agree_tac.
Qed.

Lemma agree_pvalue_round response alpha v1 v2 s :
  agree (pvalue_round ols response alpha v1 s) (pvalue_round ols response alpha v2 s).
Proof. unfold pvalue_round. agree_tac. Qed.

Lemma agree_stepwise_selection_both fuel response initial_list tin tout v1 v2 :
  agree (stepwise_selection_both ols set_iter fuel response initial_list tin tout v1)
        (stepwise_selection_both ols set_iter fuel response initial_list tin tout v2).
Proof.
  unfold stepwise_selection_both.
  pose proof (fun s => agree_stepwise_round response tin tout v1 v2 s).
  agree_tac.
Qed.

Lemma agree_backward_selection_pvalue fuel response alpha v1 v2 :
  agree (backward_selection_pvalue ols fuel response alpha v1)
        (backward_selection_pvalue ols fuel response alpha v2).
Proof.
  unfold backward_selection_pvalue.
  pose proof (fun s => agree_pvalue_round response alpha v1 v2 s).
  agree_tac.
Qed.

(** X7: [verbose] changes the printed lines and nothing else: with it
    set or not, from states with the same table (whatever was printed
    before), [stepwise_selection_both] and [backward_selection_pvalue] end
    the same way, with the same model and list or the same exception,
    after asking for the same fits in the same order. *)
Theorem verbose_only_prints fuel response v1 v2 w1 w2 :
  same_fits w1 w2 ->
  (forall initial_list tin tout,
     let run v := stepwise_selection_both ols set_iter fuel response initial_list
                    tin tout v in
     snd (run v1 w1) = snd (run v2 w2) /\
     fits_of (w_trace (fst (run v1 w1))) = fits_of (w_trace (fst (run v2 w2)))) /\
  (forall alpha,
     let run v := backward_selection_pvalue ols fuel response alpha v in
     snd (run v1 w1) = snd (run v2 w2) /\
     fits_of (w_trace (fst (run v1 w1))) = fits_of (w_trace (fst (run v2 w2)))).
Proof.
  intros Hw. split.
  - intros initial_list tin tout run. subst run.
    destruct (agree_stepwise_selection_both fuel response initial_list tin tout v1 v2
                Hw) as [[_ Hf] Hr]. auto.
  - intros alpha run. subst run.
    destruct (agree_backward_selection_pvalue fuel response alpha v1 v2 Hw)
      as [[_ Hf] Hr]. auto.
Qed.

End Verbose.

(* ================================================================= *)
(** * What the rounds keep, and what they cost *)

(** An invariant of the state and the trace together, at the end of a
    [while True] loop. *)
Lemma loop_Ok_state {S} (body : S -> M (ctl S)) (J Q : S -> World -> Prop) :
  (forall s w w' c, J s w -> body s w = (w', Ok c) ->
     match c with Continue s' => J s' w' | Break s' => Q s' w' end) ->
  forall fuel s w w' s', J s w -> loop fuel body s w = (w', Ok s') -> Q s' w'.
Proof.
  intros Hb. induction fuel as [|n IH]; intros s w w' s' Hj; simpl; [discriminate|].
  intros (w1 & c & E1 & E)%bind_Ok. specialize (Hb _ _ _ _ Hj E1).
  destruct c as [s1|s1]; [eauto|]. apply ret_Ok in E as [<- ->]. exact Hb.
Qed.

Lemma triangle_succ n : triangle (S n) = S n + triangle n.
Proof. reflexivity. Qed.

Section Rounds.

Variable ols : string -> DataFrame -> option RegressionResults.
Variable set_iter : list string -> list string.

(** X8: a round of [stepwise_selection_both] moves at most one name
    between [selected_vars] and [remaining_vars] and loses none: the two
    lists together hold the same names before and after, so a variable
    that leaves the selection is a candidate again. *)
Theorem stepwise_round_keeps_names response tin tout verbose s w w' s' :
  stepwise_round ols response tin tout verbose s w = (w', Ok s') ->
  Permutation (sw_selected s' ++ sw_remaining s') (sw_selected s ++ sw_remaining s) /\
  (forall var, In var (sw_selected s) -> ~ In var (sw_selected s') ->
     In var (sw_remaining s')).
Proof.
  intros H. apply stepwise_round_Ok in H as (_ & inc & rem & _ & _ & Hmove).
  assert (Hp : Permutation (sw_selected s' ++ sw_remaining s')
                 (sw_selected s ++ sw_remaining s)).
  { destruct Hmove as [(var & a & p & m & r & -> & _ & Hr & ->)
                      |[(var & a & m & r & -> & _ & Hr & ->)| ->]]; simpl.
    - rewrite (remove_first_perm _ _ Hr), <- app_assoc. reflexivity.
    - rewrite (remove_first_perm _ _ Hr), app_assoc. simpl. symmetry.
      apply Permutation_cons_append.
    - reflexivity. }
  split; [exact Hp|]. intros var Hin Hout.
  assert (Hv : In var (sw_selected s' ++ sw_remaining s'))
    by (apply (Permutation_in var (Permutation_sym Hp)), in_or_app; now left).
  apply in_app_or in Hv as [Hv|Hv]; [contradiction | exact Hv].
Qed.

Lemma ols_fit_fits formula w w' model :
  ols_fit ols formula w = (w', Ok model) ->
  List.length (fits_of (w_trace w')) = S (List.length (fits_of (w_trace w))).
Proof.
  unfold ols_fit. destruct (ols formula (w_data w)); [|discriminate].
  intros [= <- _]. simpl. rewrite fits_of_app, length_app. simpl. lia.
Qed.

Lemma pvalue_round_fits response alpha verbose s w w' c :
  pvalue_round ols response alpha verbose s w = (w', Ok c) ->
  match c with
  | Continue s' =>
      List.length (fits_of (w_trace w')) = S (List.length (fits_of (w_trace w))) /\
      List.length (pv_remaining s) = S (List.length (pv_remaining s'))
  | Break s' => w' = w /\ s' = s
  end.
Proof.
  unfold pvalue_round. cbv zeta.
  intros (w0 & worst_feature & E0 & E)%bind_Ok.
  apply or_raise_Ok in E0 as [_ ->].
  destruct (PyFloat.gt _ alpha).
  - apply bind_Ok in E as (w1 & u & E1 & E).
    assert (Hf1 : fits_of (w_trace w1) = fits_of (w_trace w)).
    { destruct verbose; simpl in E1; injection E1 as <- _; simpl;
        rewrite ?fits_of_app, ?app_nil_r; reflexivity. }
    apply bind_Ok in E as (w2 & remaining_vars & E2 & E).
    apply or_raise_Ok in E2 as [E2 ->].
    apply bind_Ok in E as (w3 & model & E3 & E).
    apply ret_Ok in E as [<- ->].
    apply ols_fit_fits in E3. rewrite E3, Hf1. split; [reflexivity|].
    now apply remove_first_length in E2.
  - apply ret_Ok in E as [<- ->]. auto.
Qed.

(** X9: a call of [backward_selection_pvalue] that returns has asked for
    one fit for the full model and one per variable removed: the number of
    fits is the number of columns less the number of variables returned. *)
Theorem backward_pvalue_fit_count fuel response alpha verbose w w' model vars :
  backward_selection_pvalue ols fuel response alpha verbose w = (w', Ok (model, vars)) ->
  List.length (fits_of (w_trace w')) + List.length vars
  = List.length (fits_of (w_trace w)) + List.length (columns (w_data w)).
Proof.
  unfold backward_selection_pvalue.
  intros (w1 & cols & E1 & E)%bind_Ok. injection E1 as <- <-.
  apply bind_Ok in E as (w2 & remaining_vars & E2 & E).
  apply or_raise_Ok in E2 as [E2 ->].
  apply bind_Ok in E as (w3 & full_model & E3 & E).
  apply bind_Ok in E as (w4 & s & E4 & E).
  apply ret_Ok in E as [[= <- <-] ->].
  assert (Hf3 : List.length (fits_of (w_trace w3))
                = S (List.length (fits_of (w_trace w))))
    by (eapply ols_fit_fits; exact E3).
  apply remove_first_length in E2.
  apply loop_Ok_state
    with (J := fun s v => List.length (fits_of (w_trace v)) + List.length (pv_remaining s)
                          = List.length (fits_of (w_trace w))
                            + List.length (columns (w_data w)))
         (Q := fun s v => List.length (fits_of (w_trace v)) + List.length (pv_remaining s)
                          = List.length (fits_of (w_trace w))
                            + List.length (columns (w_data w)))
    in E4; [exact E4| |simpl; lia].
  intros s0 v v' c Hj Er. apply pvalue_round_fits in Er.
  destruct c as [s1|s1]; [lia|]. destruct Er as [-> ->]. exact Hj.
Qed.

Lemma aic_candidates_fits response remaining l : forall w w' ys,
  for_each (aic_candidate ols response remaining) l w = (w', Ok ys) ->
  List.length (fits_of (w_trace w'))
  = List.length (fits_of (w_trace w)) + List.length l.
Proof.
  induction l as [|x l IH]; intros w w' ys; simpl.
  - intros [_ ->]%ret_Ok. lia.
  - intros (w1 & y & E1 & E)%bind_Ok. apply bind_Ok in E as (w2 & ys' & E2 & E).
    apply ret_Ok in E as [_ ->]. apply IH in E2. rewrite E2.
    unfold aic_candidate in E1. apply bind_Ok in E1 as (w0 & m & E0 & E1).
    apply ret_Ok in E1 as [_ ->].
    apply ols_fit_fits in E0. lia.
Qed.

Lemma aic_round_fits response s w w' c :
  aic_round ols response s w = (w', Ok c) ->
  List.length (fits_of (w_trace w'))
  = List.length (fits_of (w_trace w)) + List.length (ba_remaining s) /\
  match c with
  | Continue s' => List.length (ba_remaining s) = S (List.length (ba_remaining s'))
  | Break s' => s' = s
  end.
Proof.
  unfold aic_round. intros (w1 & aic_values & E1 & E)%bind_Ok.
  apply aic_candidates_fits in E1.
  destruct (Py.sort_by aic_key aic_values) as [|[[c0 a0] m0] rest]; [discriminate|].
  destruct (PyFloat.lt a0 (ba_aic s)).
  - apply bind_Ok in E as (w2 & r & E2 & E). apply or_raise_Ok in E2 as [E2 ->].
    apply ret_Ok in E as [<- ->]. split; [exact E1|].
    now apply remove_first_length in E2.
  - apply ret_Ok in E as [<- ->]. auto.
Qed.

(** X10: [backward_selection_aic] refits every one-variable-less model in
    every round.  A call that starts from n predictors and returns m of
    them has asked for 1 + m + (m+1) + ... + n fits: one for the full
    model, and in each round, the last one too, one per variable still
    in. *)
Theorem backward_aic_fit_count fuel response w w' model vars :
  backward_selection_aic ols fuel response w = (w', Ok (model, vars)) ->
  List.length (fits_of (w_trace w')) + triangle (pred (List.length vars))
  = List.length (fits_of (w_trace w)) + 1
    + triangle (pred (List.length (columns (w_data w)))).
Proof.
  unfold backward_selection_aic.
  intros (w1 & cols & E1 & E)%bind_Ok. injection E1 as <- <-.
  apply bind_Ok in E as (w2 & remaining_vars & E2 & E).
  apply or_raise_Ok in E2 as [E2 ->].
  apply bind_Ok in E as (w3 & full_model & E3 & E).
  apply bind_Ok in E as (w4 & s & E4 & E).
  apply ret_Ok in E as [[= <- <-] ->].
  assert (Hf3 : List.length (fits_of (w_trace w3))
                = S (List.length (fits_of (w_trace w))))
    by (eapply ols_fit_fits; exact E3).
  apply remove_first_length in E2. rewrite E2. simpl pred.
  apply loop_Ok_state
    with (J := fun s v => List.length (fits_of (w_trace v))
                          + triangle (List.length (ba_remaining s))
                          = List.length (fits_of (w_trace w)) + 1
                            + triangle (List.length remaining_vars))
         (Q := fun s v => List.length (fits_of (w_trace v))
                          + triangle (pred (List.length (ba_remaining s)))
                          = List.length (fits_of (w_trace w)) + 1
                            + triangle (List.length remaining_vars))
    in E4; [exact E4| |simpl; lia].
  intros s0 v v' c Hj Er. apply aic_round_fits in Er as [Hf Hc].
  destruct c as [s1|s1].
  - rewrite Hc, triangle_succ in Hj. lia.
  - subst s1. destruct (List.length (ba_remaining s0)) as [|k] eqn:Ek; simpl in *; lia.
Qed.

(** X11: every variable [forward_selection] returns was significant when
    it was added: in the fit of the response on the variables before it in
    the list and itself, its p-value is strictly below the significance
    level. *)
Theorem forward_selected_were_significant fuel response sl w w' model vars :
  forward_selection ols set_iter fuel response sl w = (w', Ok (model, vars)) ->
  forall before var after, vars = before ++ var :: after ->
    exists fit pval,
      ols (formula_terms response (before ++ [var])) (w_data w) = Some fit /\
      Pandas.get (pvalues fit) var = Some pval /\
      PyFloat.lt pval sl = true.
Proof.
  intros H. apply forward_selection_chain in H
    as (remaining_vars & s & _ & Hchain & _ & -> & _).
  refine (chain_invariant
            (fun s => forall before var after,
               fw_selected s = before ++ var :: after ->
               exists fit pval,
                 ols (formula_terms response (before ++ [var])) (w_data w) = Some fit /\
                 Pandas.get (pvalues fit) var = Some pval /\
                 PyFloat.lt pval sl = true)
            _ Hchain _).
  - intros a b Ha (_ & _ & pvals & c & p & Hfits & _ & [Hin _] & Hmove).
    destruct (PyFloat.lt p sl) eqn:Elt; [|subst b; exact Ha].
    destruct Hmove as (r & _ & ->). simpl. intros before var after Hsplit.
    destruct after as [|x after] using rev_ind.
    + apply app_inj_tail in Hsplit as [Hsel Hvar].
      eapply Forall2_In_r in Hin as (y & _ & Hfit); [|exact Hfits].
      destruct Hfit as (fit & Hols & Hget & Hc). simpl in *. subst y var.
      rewrite Hsel in Hols. exists fit, p. auto.
    + clear IHafter. rewrite app_comm_cons, app_assoc in Hsplit.
      apply app_inj_tail in Hsplit as [Hsel _]. eapply Ha; eauto.
  - simpl. intros [|? ?] ? ? ?; discriminate.
Qed.

End Rounds.

(* ================================================================= *)
(** * Where forward selection stops *)

Section ForwardStop.

Variable ols : string -> DataFrame -> option RegressionResults.
Variable set_iter : list string -> list string.

(** X12: when [forward_selection] returns, no candidate left out is
    significant beside the variables returned: each has been fitted
    together with them, and, the p-values of those fits being numbers, none
    is strictly below the significance level.  The variables returned and
    the candidates left out are together the predictors of the table. *)
Theorem forward_leaves_no_significant_candidate fuel response sl w w' model vars :
  forward_selection ols set_iter fuel response sl w = (w', Ok (model, vars)) ->
  exists predictors left_out pvals,
    Py.remove_first response (set_iter (columns (w_data w))) = Some predictors /\
    Permutation (vars ++ left_out) predictors /\
    Forall2 (forward_fit ols (w_data w) response vars) left_out pvals /\
    ((forall e, In e pvals -> PyFloat.number (snd e) = true) ->
     forall e, In e pvals -> PyFloat.lt (snd e) sl = false).
Proof.
  intros H. apply forward_selection_chain in H
    as (predictors & s & Hr & Hchain & Hdone & -> & _).
  assert (Hinv :
    Permutation (fw_selected s ++ fw_remaining s) predictors /\
    (fw_changed s = false ->
     exists pvals,
       Forall2 (forward_fit ols (w_data w) response (fw_selected s))
         (fw_remaining s) pvals /\
       ((forall e, In e pvals -> PyFloat.number (snd e) = true) ->
        forall e, In e pvals -> PyFloat.lt (snd e) sl = false))).
  { refine (chain_invariant
              (fun s =>
                 Permutation (fw_selected s ++ fw_remaining s) predictors /\
                 (fw_changed s = false ->
                  exists pvals,
                    Forall2 (forward_fit ols (w_data w) response (fw_selected s))
                      (fw_remaining s) pvals /\
                    ((forall e, In e pvals -> PyFloat.number (snd e) = true) ->
                     forall e, In e pvals -> PyFloat.lt (snd e) sl = false)))
              _ Hchain _); [|simpl; split; [reflexivity | discriminate]].
    intros a b [Hp _] Hstep. split; [eapply forward_step_names; eauto|].
    destruct Hstep as (_ & _ & pvals & c & p & Hfits & _ & [Hin Hleast] & Hmove).
    destruct (PyFloat.lt p sl) eqn:Elt.
    - destruct Hmove as (r & _ & ->). discriminate.
    - subst b. simpl. intros _. exists pvals. split; [exact Hfits|].
      intros Hnum e He. specialize (Hleast Hnum e He). simpl in Hleast.
      destruct (PyFloat.lt (snd e) sl) eqn:Ee; [|reflexivity].
      rewrite (FloatFacts.le_lt_trans Hleast Ee) in Elt. discriminate. }
  destruct Hinv as [Hp Hlast].
  destruct Hdone as [Hch|Hrem].
  - destruct (Hlast Hch) as (pvals & Hfits & Hnone).
    exists predictors, (fw_remaining s), pvals. auto.
  - exists predictors, [], []. rewrite Hrem in Hp.
    repeat split; auto. intros _ e [].
Qed.

End ForwardStop.

(* ================================================================= *)
(** * The exceptions forward and stepwise selection can raise *)

Lemma raises_only_ret {A} P (a : A) : raises_only P (ret a).
Proof. intros w w' e. discriminate. Qed.

Lemma raises_only_raise {A} (P : exn -> Prop) e : P e -> raises_only P (@raise A e).
Proof. intros H w w' e' [= _ <-]. exact H. Qed.

Lemma raises_only_out_of_fuel {A} P : raises_only P (@out_of_fuel A).
Proof. intros w w' e. discriminate. Qed.

(** The continuation only matters on the values the first part returns. *)
Lemma raises_only_bind {A B} P (m : M A) (f : A -> M B) :
  raises_only P m ->
  (forall w w' a, m w = (w', Ok a) -> raises_only P (f a)) ->
  raises_only P (bind m f).
Proof.
  intros Hm Hf w w' e. unfold bind.
  destruct (m w) as [w1 [a|e1|]] eqn:E.
  - intros H. eapply Hf; eauto.
  - intros [= _ <-]. eapply Hm; eauto.
  - discriminate.
Qed.

Lemma raises_only_or_raise {A} (P : exn -> Prop) e (o : option A) :
  (o = None -> P e) -> raises_only P (or_raise e o).
Proof.
  destruct o; intros H; [apply raises_only_ret | apply raises_only_raise; auto].
Qed.

Lemma raises_only_for_each {A B} P (f : A -> M B) l :
  (forall x, raises_only P (f x)) -> raises_only P (for_each f l).
Proof.
  intros Hf. induction l as [|x l IH]; simpl; [apply raises_only_ret|].
  apply raises_only_bind; [apply Hf|]. intros _ _ y _.
  apply raises_only_bind; [apply IH|]. intros _ _ ys _. apply raises_only_ret.
Qed.

Lemma raises_only_while {S} P fuel cond (body : S -> M S) s :
  (forall s, cond s = true -> raises_only P (body s)) ->
  raises_only P (while fuel cond body s).
Proof.
  intros Hb. revert s. induction fuel as [|n IH]; intros s; simpl;
    destruct (cond s) eqn:Ec; try apply raises_only_ret;
    try apply raises_only_out_of_fuel.
  apply raises_only_bind; auto.
Qed.

Lemma raises_only_ols_fit (P : exn -> Prop) ols formula :
  P FitError -> raises_only P (ols_fit ols formula).
Proof.
  intros H w w' e. unfold ols_fit.
  destruct (ols formula (w_data w)); [discriminate|]. now intros [= _ <-].
Qed.

Lemma raises_only_when_print P b l : raises_only P (when b (print l)).
Proof. intros w w' e. destruct b; discriminate. Qed.

Lemma for_each_length {A B} (f : A -> M B) l : forall w w' ys,
  for_each f l w = (w', Ok ys) -> List.length ys = List.length l.
Proof.
  induction l as [|x l IH]; intros w w' ys; simpl.
  - now intros [<- _]%ret_Ok.
  - intros (w1 & y & _ & E)%bind_Ok. apply bind_Ok in E as (w2 & ys' & E2 & E).
    apply ret_Ok in E as [<- _]. simpl. f_equal. eauto.
Qed.

Lemma sort_by_nonempty {A} (key : A -> float) l :
  l <> [] -> Py.sort_by key l <> [].
Proof. intros H E. now apply sort_by_nil in E. Qed.

Section Exceptions.

Variable ols : string -> DataFrame -> option RegressionResults.
Variable set_iter : list string -> list string.

Lemma from_fit : from_fit_or_lookup FitError.
Proof. now left. Qed.

Lemma from_lookup key : from_fit_or_lookup (KeyError key).
Proof. right. now exists key. Qed.

Lemma raises_only_forward_round response sl s :
  forward_cond s = true ->
  raises_only from_fit_or_lookup (forward_round ols response sl s).
Proof.
  intros [_ Hne]%forward_cond_true. unfold forward_round.
  apply raises_only_bind.
  - apply raises_only_for_each. intros c. unfold forward_candidate. cbv zeta.
    apply raises_only_bind; [apply raises_only_ols_fit, from_fit|].
    intros _ _ m _. apply raises_only_bind.
    + apply raises_only_or_raise. intros _. apply from_lookup.
    + intros _ _ p _. apply raises_only_ret.
  - intros w w' pvals Hp. apply for_each_length in Hp.
    assert (Hs : Py.sort_by snd pvals <> []).
    { apply sort_by_nonempty. destruct pvals; [|discriminate].
      destruct (fw_remaining s); [congruence | discriminate]. }
    destruct (Py.sort_by snd pvals) as [|[c p] rest]; [congruence|].
    destruct (PyFloat.lt p sl); [|apply raises_only_ret].
    apply raises_only_bind.
    + apply raises_only_or_raise. intros _. apply from_lookup.
    + intros _ _ r _. apply raises_only_ret.
Qed.

Lemma raises_only_best_inclusion response s :
  raises_only from_fit_or_lookup (best_inclusion ols response s).
Proof.
  unfold best_inclusion. apply raises_only_bind.
  - apply raises_only_for_each. intros c. unfold inclusion_candidate.
    apply raises_only_bind; [apply raises_only_ols_fit, from_fit|].
    intros _ _ m _. apply raises_only_bind.
    + apply raises_only_or_raise. intros _. apply from_lookup.
    + intros _ _ p _. apply raises_only_ret.
  - intros _ _ cs _. apply raises_only_ret.
Qed.

Lemma raises_only_best_removal response s :
  raises_only from_fit_or_lookup (best_removal ols response s).
Proof.
  unfold best_removal. destruct (Py.truthy (sw_selected s)) eqn:Et;
    [|apply raises_only_ret].
  apply raises_only_bind.
  - apply raises_only_for_each. intros c. unfold removal_candidate. cbv zeta.
    apply raises_only_bind; [apply raises_only_ols_fit, from_fit|].
    intros _ _ m _. apply raises_only_ret.
  - intros w w' cs Hc. apply for_each_length in Hc.
    assert (Hs : Py.sort_by aic_key cs <> []).
    { apply sort_by_nonempty. destruct cs; [|discriminate].
      destruct (sw_selected s); discriminate. }
    destruct (Py.sort_by aic_key cs); [congruence | apply raises_only_ret].
Qed.

Lemma raises_only_stepwise_round response tin tout verbose s :
  raises_only from_fit_or_lookup (stepwise_round ols response tin tout verbose s).
Proof.
  unfold stepwise_round.
  apply raises_only_bind; [apply raises_only_best_inclusion|].
  intros w w1 inc Hinc. apply best_inclusion_Ok in Hinc as [Hw1 Hinc].
  intros v v' e. unfold bind.
  destruct (best_removal ols response s v) as [v1 [rem|e1|]] eqn:Erem.
  - apply best_removal_Ok in Erem as [_ Hrem].
    (* the move cannot fail: the variable it moves is in the list it is
       taken from *)
    intros H. revert H. unfold stepwise_move. cbv zeta.
    destruct (fst (settle _ _ _ _)) eqn:Ef.
    + apply settle_fst in Ef. apply do_inclusion_true in Ef
        as (var & a & p & m & -> & _).
      apply min_aic_inclusion_In in Hinc as [Hin _].
      destruct (remove_first_In _ _ Hin) as [r Hr].
      unfold bind. rewrite Hr. simpl. destruct verbose; discriminate.
    + destruct (snd (settle _ _ _ _)) eqn:Es.
      * apply settle_snd in Es. apply do_removal_Some in Es as [[[var a] m] ->].
        apply min_aic_removal_In in Hrem as [Hin _].
        destruct (remove_first_In _ _ Hin) as [r Hr].
        unfold bind. rewrite Hr. simpl. destruct verbose; discriminate.
      * unfold bind. destruct verbose; discriminate.
  - intros [= _ <-]. eapply raises_only_best_removal; eauto.
  - discriminate.
Qed.

(** X13: whatever the table and the fits, an exception that
    [forward_selection] or [stepwise_selection_both] raises is the fit's
    or a [KeyError] of a label lookup.  Their own list handling never
    fails: no [IndexError] from the head of a sorted list, no [ValueError]
    from removing a name that a list does not hold. *)
Theorem forward_and_stepwise_exceptions fuel response w :
  (forall sl,
     match snd (forward_selection ols set_iter fuel response sl w) with
     | Raise e => from_fit_or_lookup e /\ e <> IndexError /\ e <> ValueError
     | _ => True
     end) /\
  (forall initial_list tin tout verbose,
     match snd (stepwise_selection_both ols set_iter fuel response initial_list
                  tin tout verbose w) with
     | Raise e => from_fit_or_lookup e /\ e <> IndexError /\ e <> ValueError
     | _ => True
     end).
Proof.
  assert (Hnot : forall e, from_fit_or_lookup e ->
                   from_fit_or_lookup e /\ e <> IndexError /\ e <> ValueError).
  { intros e H. split; [exact H|]. destruct H as [->|[k ->]]; split; discriminate. }
  split.
  - intros sl.
    destruct (forward_selection ols set_iter fuel response sl w) as [w' [r|e|]] eqn:E;
      simpl; auto.
    apply Hnot. revert E. unfold forward_selection.
    apply raises_only_bind; [intros v v' e'; discriminate|].
    intros _ _ cols _. apply raises_only_bind.
    + apply raises_only_or_raise. intros _. apply from_lookup.
    + intros _ _ r _. apply raises_only_bind.
      * apply raises_only_while. intros s. apply raises_only_forward_round.
      * intros _ _ s _. apply raises_only_bind;
          [apply raises_only_ols_fit, from_fit|].
        intros _ _ m _. apply raises_only_ret.
  - intros initial_list tin tout verbose.
    destruct (stepwise_selection_both ols set_iter fuel response initial_list
                tin tout verbose w) as [w' [r|e|]] eqn:E; simpl; auto.
    apply Hnot. revert E. unfold stepwise_selection_both. cbv zeta.
    apply raises_only_bind; [intros v v' e'; discriminate|].
    intros _ _ cols _. apply raises_only_bind;
      [apply raises_only_ols_fit, from_fit|].
    intros _ _ m _. apply raises_only_bind.
    + apply raises_only_while. intros s _. apply raises_only_stepwise_round.
    + intros _ _ s _. apply raises_only_ret.
Qed.

End Exceptions.

(* ================================================================= *)
(** * The stepwise search never ends above its starting point *)

Section StepwiseNeverWorse.

Variable ols : string -> DataFrame -> option RegressionResults.
Variable set_iter : list string -> list string.

(** X14: [stepwise_selection_both] returns the model it started from,
    with the initial list untouched, or a model whose AIC is strictly
    below the AIC of that starting model. *)
Theorem stepwise_never_worse fuel response initial_list tin tout verbose w w' model vars :
  stepwise_selection_both ols set_iter fuel response initial_list tin tout verbose w
    = (w', Ok (model, vars)) ->
  let selected_vars := match initial_list with None => [] | Some l => l end in
  exists start,
    ols (formula_of response selected_vars) (w_data w) = Some start /\
    ((model = start /\ vars = selected_vars) \/
     PyFloat.lt (aic model) (aic start) = true).
Proof.
  unfold stepwise_selection_both. cbv zeta.
  set (selected_vars := match initial_list with None => [] | Some l => l end) in *.
  intros (w1 & cols & E1 & E)%bind_Ok. injection E1 as <- <-.
  apply bind_Ok in E as (w2 & start & E2 & E).
  apply ols_fit_Ok in E2 as [Hbase Hw2].
  apply bind_Ok in E as (w3 & s & E3 & E).
  apply ret_Ok in E as [[= <- <-] ->].
  exists start. split; [exact Hbase|].
  eapply while_Ok
    with (d := w_data w)
         (I := fun s => sw_best_aic s = aic (sw_best_model s) /\
                        ((sw_best_model s = start /\ sw_selected s = selected_vars) \/
                         PyFloat.lt (sw_best_aic s) (aic start) = true))
    in E3 as (_ & [Haic Hfit] & _).
  - destruct Hfit as [Hsame|Hlt]; [left; exact Hsame | right; now rewrite <- Haic].
  - intros s0 v v' s1 Hv [Ha Hs] Hc Er.
    pose proof (fun Hi => @stepwise_round_decreases ols _ _ _ _ _ _ _ _ Er Hi) as Hdec.
    apply stepwise_round_Ok in Er as (Hv' & inc & rem & Hinc & Hrem & Hmove).
    rewrite Hv in *. split; [exact Hv'|].
    assert (Hbelow : sw_improved s1 = true ->
                     PyFloat.lt (sw_best_aic s1) (aic start) = true).
    { intros Hi. specialize (Hdec Hi). destruct Hs as [[Hm _]|Hlt].
      - now rewrite Ha, Hm in Hdec.
      - eapply FloatFacts.lt_trans; eauto. }
    destruct Hmove as [(var & a & p & m & r & -> & _ & Hr & ->)
                      |[(var & a & m & r & -> & _ & Hr & ->)| ->]]; simpl in *.
    + apply min_aic_inclusion_In in Hinc as (_ & _ & Hm). split; auto.
    + apply min_aic_removal_In in Hrem as (_ & _ & Hm). split; auto.
    + auto.
  - exact Hw2.
  - simpl. auto.
Qed.

End StepwiseNeverWorse.

(* ================================================================= *)
(** * The theorems at work on the example tables *)



(** With both flags set from [holding_noise], the inclusion of [x1] drops
    the AIC by 18 and the removal of [x2] by 1: the round includes [x1]. *)
Lemma stepwise_priority_witness :
  let ols := Example.table_ols Example.sales_fits in
  let s := Example.holding_noise in
  exists var_in aic_in pval_in model_in var_out aic_out model_out,
    Example.noise_inclusion = Some (var_in, aic_in, pval_in, model_in) /\
    Example.noise_removal = Some (var_out, aic_out, model_out) /\
    let drop_inclusion := (sw_best_aic s - aic_in)%float in
    let drop_removal := (sw_best_aic s - aic_out)%float in
    let after := snd (stepwise_round ols "y" 0.01 0.05 true s Example.sales_world) in
    (if PyFloat.gt drop_removal drop_inclusion
     then exists selected_vars,
            Py.remove_first var_out (sw_selected s) = Some selected_vars /\
            after = Ok (mkSw selected_vars (sw_remaining s ++ [var_out])
                          model_out aic_out true)
     else exists remaining_vars,
            Py.remove_first var_in (sw_remaining s) = Some remaining_vars /\
            after = Ok (mkSw (sw_selected s ++ [var_in]) remaining_vars
                          model_in aic_in true)) /\
    (drop_removal = drop_inclusion \/ PrimFloat.eqb drop_removal drop_inclusion = true ->
     PyFloat.gt drop_removal drop_inclusion = false).
Proof.
  intros ols s.
  apply (@stepwise_priority ols "y" 0.01%float 0.05%float true s Example.sales_world
           (fst (best_inclusion ols "y" s Example.sales_world))
           (fst (best_removal ols "y" s
                   (fst (best_inclusion ols "y" s Example.sales_world))))
           Example.noise_inclusion Example.noise_removal);
    vm_compute; reflexivity.
Defined.


(** Backward elimination by p-value on [sales] at 0.05 removes [x2]. *)
Lemma backward_pvalue_all_significant_witness :
  let ols := Example.table_ols Example.sales_fits in
  let model := (mkResults [("Intercept"%string, 0.5); ("x1"%string, 0.0001)] 10)%float in
  exists remaining_vars full_model s,
    Py.remove_first "y" (columns Example.sales) = Some remaining_vars /\
    ols (formula_terms "y" remaining_vars) Example.sales = Some full_model /\
    clos_refl_trans_1n _ (pvalue_removal ols Example.sales "y" 0.05)
      (mkPv remaining_vars full_model) s /\
    pvalue_stop 0.05 s /\
    model = pv_model s /\ ["x1"%string] = pv_remaining s /\
    forall var p, In (var, p) (pvalues model) -> var <> "Intercept"%string ->
      PyFloat.gt p 0.05 = false /\
      (PyFloat.number p = true -> PyFloat.number 0.05 = true ->
       PyFloat.le p 0.05 = true).
Proof.
  intros ols model.
  apply (proj2 (@backward_pvalue_all_significant ols "y" 0.05%float true
                  Example.sales_world) 5
           (fst (backward_selection_pvalue ols 5 "y" 0.05%float true Example.sales_world))).
  vm_compute. reflexivity.
Defined.

Lemma python_set_distinct : python_set Example.distinct.
Proof.
  intros l. split; [apply NoDup_nodup | intros x; apply nodup_In].
Defined.


(* ================================================================= *)
(** * The further properties at work on the example tables *)

Lemma response_must_be_a_column_witness :
  let ols := Example.table_ols Example.sales_fits in
  (forall sl,
     forward_selection ols Example.distinct 3 "z" sl Example.sales_world
     = (Example.sales_world, Raise (KeyError "z"))) /\
  backward_selection_aic ols 3 "z" Example.sales_world
  = (Example.sales_world, Raise ValueError) /\
  (forall alpha verbose,
     backward_selection_pvalue ols 3 "z" alpha verbose Example.sales_world
     = (Example.sales_world, Raise ValueError)).
Proof.
  intros ols.
  apply (@response_must_be_a_column ols Example.distinct 3 "z" Example.sales_world
           python_set_distinct).
  simpl. intros [H|[H|[H|[]]]]; discriminate.
Defined.

Lemma no_predictor_is_intercept_only_witness :
  let ols := Example.table_ols Example.sales_fits in
  let w := mkWorld Example.response_only [] in
  (forall sl,
     forward_selection ols Example.distinct 0 "y" sl w =
     match ols (formula_intercept "y") Example.response_only with
     | Some model => (mkWorld Example.response_only [Fit (formula_intercept "y")],
                      Ok (model, []))
     | None => (mkWorld Example.response_only [Fit (formula_intercept "y")],
                Raise FitError)
     end) /\
  (forall tin tout verbose,
     stepwise_selection_both ols Example.distinct 1 "y" None tin tout verbose w =
     match ols (formula_intercept "y") Example.response_only with
     | Some model =>
         (if verbose
          then mkWorld Example.response_only
                 ([Fit (formula_intercept "y")] ++ [Printed NoFurtherImprovement])
          else mkWorld Example.response_only [Fit (formula_intercept "y")],
          Ok (model, []))
     | None => (mkWorld Example.response_only [Fit (formula_intercept "y")],
                Raise FitError)
     end).
Proof.
  intros ols w.
  apply (@no_predictor_is_intercept_only ols Example.distinct 0 "y" w
           python_set_distinct).
  reflexivity.
Defined.

Lemma backward_aic_keeps_predictors_witness :
  let ols := Example.table_ols Example.survey_fits in
  ["x1"; "x2"]%string <> [] /\
  (ols (formula_terms "y" []) Example.survey = None ->
   exists a b, In a ["x1"; "x2"]%string /\ In b ["x1"; "x2"]%string /\ a <> b).
Proof.
  intros ols.
  apply (@backward_aic_keeps_predictors ols 5 "y" Example.survey_world
           (fst (backward_selection_aic ols 5 "y" Example.survey_world))
           (mkResults [("Intercept"%string, 0.1); ("x1"%string, 0.01);
                       ("x2"%string, 0.02)] 15)%float).
  vm_compute. reflexivity.
Defined.

Lemma backward_pvalue_model_fits_result_witness :
  let ols := Example.table_ols Example.sales_fits in
  let model := (mkResults [("Intercept"%string, 0.5); ("x1"%string, 0.0001)] 10)%float in
  ols (formula_terms "y" ["x1"%string]) Example.sales = Some model \/
  (["x1"%string] = [] /\ ols (formula_intercept "y") Example.sales = Some model).
Proof.
  intros ols model.
  apply (@backward_pvalue_model_fits_result ols 5 "y" 0.05%float true Example.sales_world
           (fst (backward_selection_pvalue ols 5 "y" 0.05%float true Example.sales_world))).
  vm_compute. reflexivity.
Defined.

Lemma backward_aic_model_fits_result_witness :
  let ols := Example.table_ols Example.survey_fits in
  ols (formula_terms "y" ["x1"; "x2"]%string) Example.survey
  = Some (mkResults [("Intercept"%string, 0.1); ("x1"%string, 0.01);
                     ("x2"%string, 0.02)] 15)%float.
Proof.
  intros ols.
  apply (@backward_aic_model_fits_result ols 5 "y" Example.survey_world
           (fst (backward_selection_aic ols 5 "y" Example.survey_world))).
  - simpl. repeat constructor; simpl; intuition discriminate.
  - vm_compute. reflexivity.
Defined.

Lemma stepwise_model_fits_result_witness :
  let ols := Example.table_ols Example.sales_fits in
  ols (formula_of "y" ["x2"; "x1"]%string) Example.sales
  = Some (mkResults [("Intercept"%string, 0.5); ("x2"%string, 0.6);
                     ("x1"%string, 0.0001)] 12)%float.
Proof.
  intros ols.
  apply (@stepwise_model_fits_result ols Example.distinct 5 "y" (Some ["x2"%string])
           0.01%float 0.9%float false Example.sales_world
           (fst (stepwise_selection_both ols Example.distinct 5 "y" (Some ["x2"%string])
                   0.01%float 0.9%float false Example.sales_world))).
  - exact python_set_distinct.
  - repeat constructor; simpl; intuition.
  - vm_compute. reflexivity.
Defined.

Lemma verbose_only_prints_witness :
  let ols := Example.table_ols Example.sales_fits in
  let w1 := Example.sales_world in
  let w2 := Example.sales_world_printed in
  (forall initial_list tin tout,
     let run v := stepwise_selection_both ols Example.distinct 5 "y" initial_list
                    tin tout v in
     snd (run true w1) = snd (run false w2) /\
     fits_of (w_trace (fst (run true w1))) = fits_of (w_trace (fst (run false w2)))) /\
  (forall alpha,
     let run v := backward_selection_pvalue ols 5 "y" alpha v in
     snd (run true w1) = snd (run false w2) /\
     fits_of (w_trace (fst (run true w1))) = fits_of (w_trace (fst (run false w2)))).
Proof.
  intros ols w1 w2.
  apply (@verbose_only_prints ols Example.distinct 5 "y" true false w1 w2).
  split; reflexivity.
Defined.

Lemma stepwise_round_keeps_names_witness :
  let s := Example.holding_noise in
  let s' := mkSw ["x2"; "x1"]%string []
              (mkResults [("Intercept"%string, 0.5); ("x2"%string, 0.6);
                          ("x1"%string, 0.0001)] 12)%float 12%float true in
  Permutation (sw_selected s' ++ sw_remaining s') (sw_selected s ++ sw_remaining s) /\
  (forall var, In var (sw_selected s) -> ~ In var (sw_selected s') ->
     In var (sw_remaining s')).
Proof.
  intros s s'.
  apply (@stepwise_round_keeps_names (Example.table_ols Example.sales_fits) "y"
           0.01%float 0.05%float false s Example.sales_world
           (fst (stepwise_round (Example.table_ols Example.sales_fits) "y"
                   0.01%float 0.05%float false s Example.sales_world)) s').
  vm_compute. reflexivity.
Defined.

Lemma backward_pvalue_fit_count_witness :
  let out := backward_selection_pvalue (Example.table_ols Example.sales_fits) 5 "y"
               0.05 true Example.sales_world in
  List.length (fits_of (w_trace (fst out))) + List.length ["x1"%string]
  = List.length (fits_of (w_trace Example.sales_world))
    + List.length (columns (w_data Example.sales_world)).
Proof.
  intros out.
  apply (@backward_pvalue_fit_count (Example.table_ols Example.sales_fits) 5 "y"
           0.05%float true Example.sales_world (fst out)
           (mkResults [("Intercept"%string, 0.5); ("x1"%string, 0.0001)] 10)%float).
  vm_compute. reflexivity.
Defined.

Lemma backward_aic_fit_count_witness :
  let out := backward_selection_aic (Example.table_ols Example.survey_fits) 5 "y"
               Example.survey_world in
  List.length (fits_of (w_trace (fst out)))
  + triangle (pred (List.length ["x1"; "x2"]%string))
  = List.length (fits_of (w_trace Example.survey_world)) + 1
    + triangle (pred (List.length (columns (w_data Example.survey_world)))).
Proof.
  intros out.
  apply (@backward_aic_fit_count (Example.table_ols Example.survey_fits) 5 "y"
           Example.survey_world (fst out)
           (mkResults [("Intercept"%string, 0.1); ("x1"%string, 0.01);
                       ("x2"%string, 0.02)] 15)%float).
  vm_compute. reflexivity.
Defined.

Lemma forward_selected_were_significant_witness :
  let ols := Example.table_ols Example.sales_fits in
  exists fit pval,
    ols (formula_terms "y" ([] ++ ["x1"%string])) (w_data Example.sales_world)
    = Some fit /\
    Pandas.get (pvalues fit) "x1" = Some pval /\
    PyFloat.lt pval 0.05 = true.
Proof.
  intros ols.
  apply (@forward_selected_were_significant ols Example.distinct 5 "y" 0.05%float
           Example.sales_world
           (fst (forward_selection ols Example.distinct 5 "y" 0.05%float
                   Example.sales_world))
           (mkResults [("Intercept"%string, 0.5); ("x1"%string, 0.0001)] 10)%float
           ["x1"%string]) with (after := @nil string).
  - vm_compute. reflexivity.
  - reflexivity.
Defined.

Lemma forward_leaves_no_significant_candidate_witness :
  let ols := Example.table_ols Example.sales_fits in
  exists predictors left_out pvals,
    Py.remove_first "y" (Example.distinct (columns (w_data Example.sales_world)))
    = Some predictors /\
    Permutation (["x1"%string] ++ left_out) predictors /\
    Forall2 (forward_fit ols (w_data Example.sales_world) "y" ["x1"%string])
      left_out pvals /\
    ((forall e, In e pvals -> PyFloat.number (snd e) = true) ->
     forall e, In e pvals -> PyFloat.lt (snd e) 0.05 = false).
Proof.
  intros ols.
  apply (@forward_leaves_no_significant_candidate ols Example.distinct 5 "y"
           0.05%float Example.sales_world
           (fst (forward_selection ols Example.distinct 5 "y" 0.05%float
                   Example.sales_world))
           (mkResults [("Intercept"%string, 0.5); ("x1"%string, 0.0001)] 10)%float
           ["x1"%string]).
  vm_compute. reflexivity.
Defined.

Lemma stepwise_never_worse_witness :
  let ols := Example.table_ols Example.sales_fits in
  let model := (mkResults [("Intercept"%string, 0.5); ("x2"%string, 0.6);
                           ("x1"%string, 0.0001)] 12)%float in
  exists start,
    ols (formula_of "y" ["x2"%string]) (w_data Example.sales_world) = Some start /\
    ((model = start /\ ["x2"; "x1"]%string = ["x2"%string]) \/
     PyFloat.lt (aic model) (aic start) = true).
Proof.
  intros ols model.
  apply (@stepwise_never_worse ols Example.distinct 5 "y" (Some ["x2"%string])
           0.01%float 0.9%float false Example.sales_world
           (fst (stepwise_selection_both ols Example.distinct 5 "y" (Some ["x2"%string])
                   0.01%float 0.9%float false Example.sales_world))).
  vm_compute. reflexivity.
Defined.
